(** * sequelize-socket-interface: the connection handler and the client

    A shallow embedding of [ModelServer]'s data handler (the server part that
    ships in README.md) and of [ModelClient._write] (lib/client.js).

    Boundary of the model.
    - [JSON.parse] is not re-implemented: an inbound chunk is given together
      with what [JSON.parse] makes of it (a [SyntaxError] or a JSON value).
      JSON numbers are the integers, printed in decimal as property keys.
    - [JSON.stringify] is not re-implemented either: a frame written on the
      socket records the value handed to it.
    - Provider objects (model classes, records, arrays of records, promises)
      live in a heap and are referred to by location; a method is a function
      of its parameters and does not itself write the heap.  Only the members
      the handler can observe are modelled: callable members, the indexed
      elements of an array, the provenance of a record, the settlement of a
      promise.
    - Native members of [net.Socket], of [Object.prototype] and of the
      prototypes of primitive values are not modelled: tenant, model and
      method names are taken not to collide with them.  The objects that
      have a [then] are the promises, and a connection of the document
      provider has its [model] function and nothing else.  The two properties the handler itself installs on the socket,
      [MySql] and [Mongo], are modelled, in the same name space as the
      tenants, as the code has them.
    - The text of an engine-raised [TypeError] is an approximation of V8's;
      the message literals of the source are exact.
    - Where a property depends on the socket's own members or on inherited
      members, it is stated for names that are no built-in names
      ([socket_intact], [plain_names]). *)

From Stdlib Require Import ZArith Ascii String List Lia.
From stdpp Require Import base option list strings gmap pretty.

Open Scope string_scope.
Set Warnings "-register-all".

(** ** JSON values, as [JSON.parse] produces them *)

Inductive json : Type :=
| JNull
| JBool (b : bool)
| JNum (z : Z)
| JStr (s : string)
| JArr (items : list json)
| JObj (fields : list (string * json)).

(** A JavaScript expression that may evaluate to [undefined]. *)
Definition jsvalue : Type := option json.

(** [!data] *)
Definition falsy (j : json) : bool :=
  match j with
  | JNull => true
  | JBool b => negb b
  | JNum z => Z.eqb z 0
  | JStr s => if decide (s = "") then true else false
  | JArr _ | JObj _ => false
  end.

(** [data.name]: property access on a truthy parsed value; a later
    duplicate key wins in [JSON.parse]. *)
Fixpoint field_of (fields : list (string * json)) (name : string) : jsvalue :=
  match fields with
  | [] => None
  | (k, v) :: rest =>
      match field_of rest name with
      | Some w => Some w
      | None => if decide (k = name) then Some v else None
      end
  end.

Definition get_field (data : json) (name : string) : jsvalue :=
  match data with
  | JObj fields => field_of fields name
  | _ => None
  end.

(** [String(v)], the coercion applied to a computed property key. *)
Fixpoint to_key_json (j : json) : string :=
  match j with
  | JNull => "null"
  | JBool true => "true"
  | JBool false => "false"
  | JNum z => pretty z
  | JStr s => s
  | JArr items =>
      (fix join (l : list json) : string :=
         match l with
         | [] => ""
         | x :: rest =>
             let here := match x with JNull => "" | _ => to_key_json x end in
             match rest with
             | [] => here
             | _ => here ++ "," ++ join rest
             end
         end) items
  | JObj _ => "[object Object]"
  end.

Definition to_key (v : jsvalue) : string :=
  match v with
  | None => "undefined"
  | Some j => to_key_json j
  end.

Definition is_Some_b {A} (o : option A) : bool :=
  match o with Some _ => true | None => false end.

(** [v === 'literal'] *)
Definition is_str (v : jsvalue) (s : string) : bool :=
  match v with
  | Some (JStr t) => if decide (t = s) then true else false
  | _ => false
  end.

(** [if (!Array.isArray(params)) params = [params];] *)
Definition normalize_params (params : jsvalue) : list jsvalue :=
  match params with
  | Some (JArr items) => map Some items
  | other => [other]
  end.

(** ** Errors and runtime values *)

(** A thrown value; [sendError] reads its [message]. *)
Record jserror : Type := Thrown { err_name : string; message : string }.

Definition Error (msg : string) : jserror := Thrown "Error" msg.
Definition TypeError (msg : string) : jserror := Thrown "TypeError" msg.
Definition SyntaxError (msg : string) : jserror := Thrown "SyntaxError" msg.

Definition cannot_read (prop base : string) : jserror :=
  TypeError ("Cannot read property '" ++ prop ++ "' of " ++ base).
Definition cannot_set (prop base : string) : jserror :=
  TypeError ("Cannot set property '" ++ prop ++ "' of " ++ base).
Definition not_a_function (what : string) : jserror :=
  TypeError (what ++ " is not a function").

Abbreviation loc := positive.

(** What a provider can hand to the handler. *)
Inductive val : Type :=
| VUndef
| VNull
| VBool (b : bool)
| VNum (z : Z)
| VStr (s : string)
| VRef (l : loc).

(** A call either throws or returns. *)
Inductive outcome : Type :=
| Throws (e : jserror)
| Returns (v : val).

Definition method : Type := list jsvalue -> outcome.

(** How a promise settles. *)
Inductive settlement : Type :=
| Fulfils (v : val)
| Rejects (e : jserror).

(** What the handler can tell about an object:
    - [Array.isArray(o)];
    - [o.Model instanceof sequelize.Model], with [o.Model.name];
    - [o instanceof mongoose.Model], with [o.constructor.modelName];
    - a thenable, with its settlement. *)
Inductive kind : Type :=
| Plain
| Array (elems : list val)
| SequelizeInstance (name : string)
| MongooseDocument (modelName : string)
| Promise (s : settlement).

Record object : Type := Object {
  obj_kind : kind;
  members : gmap string method
}.

Abbreviation heap_t := (gmap loc object).

Definition plain_object : object := Object Plain ∅.

Definition deref (h : heap_t) (l : loc) : object :=
  default plain_object (h !! l).

(** [Array.isArray(v)], with the elements when it holds. *)
Definition as_array (h : heap_t) (v : val) : option (list val) :=
  match v with
  | VRef l => match obj_kind (deref h l) with
              | Array elems => Some elems
              | _ => None
              end
  | _ => None
  end.

(** [v[name]], as far as callable members go. *)
Definition member (h : heap_t) (v : val) (name : string) : jserror + option method :=
  match v with
  | VUndef => inl (cannot_read name "undefined")
  | VNull => inl (cannot_read name "null")
  | VRef l => inr (members (deref h l) !! name)
  | _ => inr None
  end.

(** [v[name](...params)] *)
Definition invoke (h : heap_t) (v : val) (name : string) (params : list jsvalue) : outcome :=
  match member h v name with
  | inl e => Throws e
  | inr None => Throws (not_a_function name)
  | inr (Some f) => f params
  end.

(** ** The connection

    [socket.MySql], [socket.Mongo] and [socket[tenant]] are properties of one
    object.  A property holds the relational provider (tenant, then model
    class), the document provider (tenant, then a connection with its [model]
    function) or a tenant cache [{data: {}, dataSets: {}}]. *)

Definition mongo_conn : Type := jsvalue -> outcome.

Inductive slot : Type :=
| SSql (tenants : gmap string (gmap string val))
| SMongo (tenants : gmap string mongo_conn)
| SCache (data dataSets : gmap string val).

(** What [socket.write] was given: [JSON.stringify(record)] or
    [JSON.stringify({error: err.message})]. *)
Inductive frame : Type :=
| Payload (v : val)
| ErrorFrame (msg : string).

Record conn : Type := Conn {
  props : gmap string slot;
  heap : heap_t;
  written : list frame
}.

Definition set_props (f : gmap string slot -> gmap string slot) (c : conn) : conn :=
  Conn (f (props c)) (heap c) (written c).
Definition set_heap (h : heap_t) (c : conn) : conn :=
  Conn (props c) h (written c).
Definition write (f : frame) (c : conn) : conn :=
  Conn (props c) (heap c) (written c ++ [f]).

(** [this]: the server, with the two providers it requires at start-up. *)
Record server : Type := Server {
  MySql : gmap string (gmap string val);
  Mongo : gmap string mongo_conn
}.

(** The connection handler up to the point where the data handler is
    attached: [socket.MySql = this.MySql; socket.Mongo = this.Mongo]. *)
Definition on_connection (this : server) (h : heap_t) : conn :=
  Conn (<["Mongo" := SMongo (Mongo this)]> (<["MySql" := SSql (MySql this)]> ∅)) h [].

(** The second level of [socket[a][b]]. *)
Inductive level2 : Type :=
| L2Map (m : gmap string val)
| L2Conn (c : mongo_conn).

Definition slot_get (s : slot) (name : string) : option level2 :=
  match s with
  | SSql tenants => L2Map <$> tenants !! name
  | SMongo tenants => L2Conn <$> tenants !! name
  | SCache data dataSets =>
      if decide (name = "data") then Some (L2Map data)
      else if decide (name = "dataSets") then Some (L2Map dataSets)
      else None
  end.

Definition l2_get (x : level2) (name : string) : val :=
  match x with
  | L2Map m => default VUndef (m !! name)
  | L2Conn _ => VUndef
  end.

(** ** A state and exception monad: the state survives a throw *)

Definition M (A : Type) : Type := conn -> conn * (jserror + A).

Definition ret {A} (a : A) : M A := fun c => (c, inr a).
Definition throw {A} (e : jserror) : M A := fun c => (c, inl e).
Definition bind {A B} (m : M A) (k : A -> M B) : M B :=
  fun c => match m c with
           | (c', inl e) => (c', inl e)
           | (c', inr a) => k a c'
           end.
Definition try_catch {A} (m : M A) (handler : jserror -> M A) : M A :=
  fun c => match m c with
           | (c', inl e) => handler e c'
           | r => r
           end.
Definition get : M conn := fun c => (c, inr c).
Definition modify (f : conn -> conn) : M unit := fun c => (f c, inr tt).
Definition lift {A} (r : jserror + A) : M A := fun c => (c, r).

Notation "'let!' x ':=' m 'in' k" := (bind m (fun x => k))
  (at level 10, x name, m at level 100, k at level 200).
Notation "m '>>' k" := (bind m (fun _ => k))
  (at level 100, k at level 200, right associativity).

(** [function sendError(socket, err)] *)
Definition sendError (err : jserror) : M unit :=
  modify (write (ErrorFrame (message err))).

(** ** [ModelServer.prototype._getModelName] and [_getPlainObject] *)

Definition lower_ascii (a : ascii) : ascii :=
  let n := nat_of_ascii a in
  if (65 <=? n)%nat && (n <=? 90)%nat then ascii_of_nat (n + 32) else a.

(** [name[0].toLowerCase() + name.slice(1)] *)
Definition lower_first (name : string) : jserror + string :=
  match name with
  | EmptyString => inl (cannot_read "toLowerCase" "undefined")
  | String a rest => inr (String (lower_ascii a) rest)
  end.

Definition _getModelName (h : heap_t) (record : val) : jserror + string :=
  match record with
  | VUndef => inl (cannot_read "Model" "undefined")
  | VNull => inl (cannot_read "Model" "null")
  | VRef l =>
      match obj_kind (deref h l) with
      | SequelizeInstance name => lower_first name
      | MongooseDocument modelName => lower_first modelName
      | _ => inr "raw"
      end
  | _ => inr "raw"
  end.

(** [record.get()] when [record.get] is there, [record] otherwise; the same
    for [toJSON]. *)
Definition extract (h : heap_t) (record : val) (op : string) : jserror + val :=
  match member h record op with
  | inl e => inl e
  | inr None => inr record
  | inr (Some f) =>
      match f [] with
      | Throws e => inl e
      | Returns v => inr v
      end
  end.

Definition _getPlainObject (h : heap_t) (record : val) (type : jsvalue) : jserror + val :=
  if is_str type "MySql" then extract h record "get"
  else if is_str type "Mongo" then extract h record "toJSON"
  else inr record.

(** ** [resolved] *)

(** [record[index] = v] on the array at [l]. *)
Definition set_elem (h : heap_t) (l : loc) (index : nat) (v : val) : heap_t :=
  match h !! l with
  | Some (Object (Array elems) ms) => <[l := Object (Array (<[index := v]> elems)) ms]> h
  | _ => h
  end.

(** [record.forEach((element, index) => { record[index] = this._getPlainObject(element, db); })],
    from [index] on; [todo] are the elements not yet visited. *)
Fixpoint normalize_each (db : jsvalue) (l : loc) (index : nat) (todo : list val) : M unit :=
  match todo with
  | [] => ret tt
  | element :: rest =>
      let! c := get in
      let! plain := lift (_getPlainObject (heap c) element db) in
      modify (set_heap (set_elem (heap c) l index plain)) >>
      normalize_each db l (S index) rest
  end.

(** [socket[tenant].data[name] = record] ([which] is "data" or "dataSets"):
    the base [socket[tenant][which]] is evaluated before the key. *)
Definition store (tenant : string) (which : string) (key : M string) (record : val) : M unit :=
  let! c := get in
  match props c !! tenant with
  | None => throw (cannot_read which "undefined")
  | Some (SCache data dataSets) =>
      let! name := key in
      if decide (which = "data")
      then modify (set_props (<[tenant := SCache (<[name := record]> data) dataSets]>))
      else modify (set_props (<[tenant := SCache data (<[name := record]> dataSets)]>))
  | Some (SSql tenants) =>
      let! name := key in
      match tenants !! which with
      | None => throw (cannot_set name "undefined")
      | Some m =>
          modify (set_props (<[tenant := SSql (<[which := <[name := record]> m]> tenants)]>))
      end
  | Some (SMongo tenants) =>
      let! name := key in
      match tenants !! which with
      | None => throw (cannot_set name "undefined")
      | Some _ => ret tt
      end
  end.

Definition signature_mismatch : jserror := Error "Signature does not match.".

Definition invalid_chunk : jserror :=
  TypeError "Invalid data, chunk must be a string or buffer, not undefined".

(** [socket.write(JSON.stringify(record))]: [JSON.stringify(undefined)] is
    [undefined], which [socket.write] refuses. *)
Definition write_json (record : val) : M unit :=
  match record with
  | VUndef => throw invalid_chunk
  | _ => modify (write (Payload record))
  end.

(** [if (record === undefined) record = null;] *)
Definition or_null (record : val) : val :=
  match record with VUndef => VNull | _ => record end.

Definition is_cached (db : jsvalue) : bool := is_str db "data" || is_str db "dataSets".

Definition resolved (db tenant : jsvalue) (record : val) : M unit :=
  let record := or_null record in
  let! c := get in
  let isArray := as_array (heap c) record in
  (if negb (is_cached db) then
     match isArray with
     | Some elems =>
         store (to_key tenant) "dataSets"
               (lift (_getModelName (heap c) (default VUndef (elems !! 0%nat)))) record
     | None =>
         store (to_key tenant) "data" (lift (_getModelName (heap c) record)) record
     end
   else ret tt) >>
  let! record :=
    match isArray, record with
    | Some elems, VRef l => normalize_each db l 0 elems >> ret record
    | _, _ => let! c := get in lift (_getPlainObject (heap c) record db)
    end in
  try_catch (write_json record) sendError.

(** ** The data handler *)

(** What [JSON.parse] makes of an inbound chunk. *)
Inductive inbound : Type :=
| Unparsable (err : jserror)
| Parsed (data : json).

(** What the handler leaves behind when it returns: nothing, or
    [resolved.bind(this)] subscribed to a promise; [db] and [tenant] are the
    variables the closure captured. *)
Inductive reaction : Type :=
| Done
| Await (s : settlement) (db tenant : jsvalue).

(** [typeof promise === 'object' && promise.then] *)
Definition thenable (h : heap_t) (promise : val) : jserror + option settlement :=
  match promise with
  | VNull => inl (cannot_read "then" "null")
  | VRef l => match obj_kind (deref h l) with
              | Promise s => inr (Some s)
              | _ => inr None
              end
  | _ => inr None
  end.

(** [x.then(resolved.bind(this))] with no test before it. *)
Definition then_of (h : heap_t) (x : val) : jserror + settlement :=
  match x with
  | VUndef => inl (cannot_read "then" "undefined")
  | VNull => inl (cannot_read "then" "null")
  | VRef l => match obj_kind (deref h l) with
              | Promise s => inr s
              | _ => inl (not_a_function "then")
              end
  | _ => inl (not_a_function "then")
  end.

Definition returned (o : outcome) : M val :=
  match o with
  | Throws e => throw e
  | Returns v => ret v
  end.

(** [socket[a][b]], then the continuation on the second level. *)
Definition socket_get2 (a b next : string) : M level2 :=
  let! c := get in
  match props c !! a with
  | None => throw (cannot_read b "undefined")
  | Some s =>
      match slot_get s b with
      | None => throw (cannot_read next "undefined")
      | Some x => ret x
      end
  end.

(** [socket[db][tenant].model(model)[method](...params)] *)
Definition call_mongo (db tenant model method : jsvalue) (params : list jsvalue) : M val :=
  let! x := socket_get2 (to_key db) (to_key tenant) "model" in
  let! cls :=
    match x with
    | L2Conn connection => returned (connection model)
    | L2Map _ => throw (not_a_function "model")
    end in
  let! c := get in
  returned (invoke (heap c) cls (to_key method) params).

(** [socket[propA][propB][model][method](...params)]: for [data] and
    [dataSets] the tenant comes first. *)
Definition call_target (db tenant model method : jsvalue) (params : list jsvalue) : M val :=
  let propA := if is_cached db then to_key tenant else to_key db in
  let propB := if is_cached db then to_key db else to_key tenant in
  let! x := socket_get2 propA propB (to_key model) in
  let! c := get in
  returned (invoke (heap c) (l2_get x (to_key model)) (to_key method) params).

(** The [db === 'Mongo'] branch, inside its [try]. *)
Definition mongo_branch (db tenant model method : jsvalue) (params : list jsvalue) : M reaction :=
  let! result := call_mongo db tenant model method params in
  let! c := get in
  let! s := lift (then_of (heap c) result) in
  ret (Await s db tenant).

(** The other branch, inside its [try]. *)
Definition direct_branch (db tenant model method : jsvalue) (params : list jsvalue) : M reaction :=
  let! promise := call_target db tenant model method params in
  let! c := get in
  let! t := lift (thenable (heap c) promise) in
  match t with
  | Some s => ret (Await s db tenant)
  | None => resolved db tenant promise >> ret Done
  end.

(** The invocation of either branch. *)
Definition invocation (db tenant model method : jsvalue) (params : list jsvalue) : M val :=
  if is_str db "Mongo"
  then call_mongo db tenant model method params
  else call_target db tenant model method params.

Definition catch_send (m : M reaction) : M reaction :=
  try_catch m (fun err => sendError err >> ret Done).

(** [socket.on('data', data => { ... })] *)
Definition on_data (chunk : inbound) : M reaction :=
  match chunk with
  | Unparsable err => sendError err >> ret Done
  | Parsed data =>
      if falsy data then sendError signature_mismatch >> ret Done
      else
        let db := get_field data "db" in
        let tenant := get_field data "tenant" in
        let model := get_field data "model" in
        let method := get_field data "method" in
        let params := normalize_params (get_field data "params") in
        let dispatch :=
          if is_str db "Mongo"
          then catch_send (mongo_branch db tenant model method params)
          else catch_send (direct_branch db tenant model method params) in
        if is_cached db then dispatch
        else if is_str db "MySql" || is_str db "Mongo"
        then modify (set_props (<[to_key tenant := SCache ∅ ∅]>)) >> dispatch
        else sendError signature_mismatch >> ret Done
  end.

(** The promise settles: [resolved] runs as its fulfilment callback; nothing
    was subscribed for a rejection.  [Some e] is an unhandled rejection. *)
Definition on_settle (r : reaction) (c : conn) : conn * option jserror :=
  match r with
  | Done => (c, None)
  | Await (Rejects e) _ _ => (c, Some e)
  | Await (Fulfils v) db tenant =>
      match resolved db tenant v c with
      | (c', inl e) => (c', Some e)
      | (c', inr _) => (c', None)
      end
  end.

(** One request under the alternating protocol: the chunk is handled and
    the promise, if any, settles before the next chunk arrives. *)
Definition serve (chunk : inbound) (c : conn) : conn * option jserror :=
  match on_data chunk c with
  | (c', inl e) => (c', Some e)
  | (c', inr r) => on_settle r c'
  end.

(** A run of requests on one connection, each served to completion; the
    unhandled rejections are collected in order. *)
Fixpoint serve_all (chunks : list inbound) (c : conn) : conn * list jserror :=
  match chunks with
  | [] => (c, [])
  | chunk :: rest =>
      let '(c1, u) := serve chunk c in
      let '(c2, us) := serve_all rest c1 in
      (c2, match u with Some e => e :: us | None => us end)
  end.

(** The request object [mergeOptions] builds, as the server parses it. *)
Definition request (db tenant model method : string) (params : list json) : inbound :=
  Parsed (JObj [("db", JStr db); ("tenant", JStr tenant); ("model", JStr model);
                ("method", JStr method); ("params", JArr params)]).

(** ** The client: [ModelClient.prototype._write] *)

Module Client.

(** Why a promise is rejected: a thrown or emitted error, or the string
    the executor rejects with. *)
Inductive reason : Type :=
| ByError (e : jserror)
| ByString (s : string).

Inductive promise_state : Type :=
| Pending
| Fulfilled (value : json)
| Rejected (r : reason).

(** What the socket emits after the write. *)
Inductive socket_event : Type :=
| DataEvent (chunk : inbound)
| ErrorEvent (e : jserror).

Definition waiting_for_drain : string := "Waiting for 'drain' event.".

(** The promise of [new Promise((resolve, reject) => ...)]: rejected at
    once when [socket.write] returns [false], else settled by whichever of
    the two [once] listeners fires first.  The chunk is kept with what
    [JSON.parse] will make of it. *)
Definition executor (write_ok : bool) (events : list socket_event) : option (reason + inbound) :=
  if negb write_ok then Some (inl (ByString waiting_for_drain))
  else match events with
       | [] => None
       | DataEvent chunk :: _ => Some (inr chunk)
       | ErrorEvent e :: _ => Some (inl (ByError e))
       end.

(** [.then(data => { return JSON.parse(data); })] *)
Definition then_parse (settled : option (reason + inbound)) : promise_state :=
  match settled with
  | None => Pending
  | Some (inl r) => Rejected r
  | Some (inr (Unparsable err)) => Rejected (ByError err)
  | Some (inr (Parsed value)) => Fulfilled value
  end.

(** [_write(data)]: [data] is what [mergeOptions] returned, the error
    [JSON.stringify] threw or the serialized request. *)
Definition _write (data : jserror + string) (write_ok : bool)
           (events : list socket_event) : promise_state :=
  match data with
  | inl err => Rejected (ByError err)
  | inr _ => then_parse (executor write_ok events)
  end.

(** The error message of the wire protocol, [{error: <string>}]. *)
Definition error_message (msg : string) : json := JObj [("error", JStr msg)].

End Client.

(** ** Vocabulary of the protocol *)

(** The four values of the provider field. *)
Definition provider_enum (db : jsvalue) : bool :=
  is_str db "MySql" || is_str db "Mongo" || is_str db "data" || is_str db "dataSets".

(** [socket[tenant] = {data: {}, dataSets: {}}] *)
Definition init_cache (tenant : string) (c : conn) : conn :=
  set_props (<[tenant := SCache ∅ ∅]>) c.

(** The connection when the invocation of a request starts. *)
Definition dispatched (db tenant : jsvalue) (c : conn) : conn :=
  if is_cached db then c else init_cache (to_key tenant) c.

(** The messages the data model calls invalid: not JSON, falsy, a missing
    [tenant], [model] or [method], or a provider outside the enum. *)
Definition malformed (chunk : inbound) : bool :=
  match chunk with
  | Unparsable _ => true
  | Parsed data =>
      falsy data
      || negb (is_Some_b (get_field data "tenant"))
      || negb (is_Some_b (get_field data "model"))
      || negb (is_Some_b (get_field data "method"))
      || negb (provider_enum (get_field data "db"))
  end.

(** [socket[tenant][which][name]], the cache entry a [data] or [dataSets]
    request looks up. *)
Definition cached (c : conn) (tenant which name : string) : option val :=
  match props c !! tenant with
  | Some s => match slot_get s which with
              | Some (L2Map m) => m !! name
              | _ => None
              end
  | None => None
  end.

(** A computation that leaves the properties of the socket as they are. *)
Definition keeps_props {A} (m : M A) : Prop := forall c, props (m c).1 = props c.

(** The three shapes of a tenant cache after a direct call that started
    from [SCache d ds]: untouched, or with [record] added to one of the two
    maps. *)
Definition stored_at_most (record : val) (d ds : gmap string val) (s : slot) : Prop :=
  s = SCache d ds
  \/ (exists name, s = SCache (<[name := record]> d) ds)
  \/ (exists name, s = SCache d (<[name := record]> ds)).

Ltac unfold_M :=
  unfold bind, ret, throw, lift, get, modify, try_catch, returned in *.

(** The property [k] of the socket is a tenant cache. *)
Definition is_cache_at (c : conn) (k : string) : Prop :=
  exists d ds, props c !! k = Some (SCache d ds).

(** Apart from [MySql] and [Mongo], a property of the socket the handler
    uses is absent or a tenant cache. *)
Definition tenants_are_caches (c : conn) : Prop :=
  forall k, k <> "MySql" -> k <> "Mongo" -> props c !! k = None \/ is_cache_at c k.

(** The value an invocation result stands for: itself, or what its promise
    is fulfilled with. *)
Definition answer (h : heap_t) (v : val) : option val :=
  match thenable h v with
  | inr None => Some v
  | inr (Some (Fulfils w)) => Some w
  | _ => None
  end.

(** ** A school: the world of the README example *)

Module School.

Definition Student : loc := 1%positive.
Definition student : loc := 2%positive.
Definition student_plain : loc := 3%positive.
Definition parents_promise : loc := 4%positive.
Definition parents : loc := 5%positive.
Definition mother : loc := 6%positive.
Definition father : loc := 7%positive.
Definition mother_plain : loc := 8%positive.
Definition father_plain : loc := 9%positive.
Definition found : loc := 10%positive.
Definition failing : loc := 11%positive.
Definition nothing : loc := 12%positive.
Definition everyone : loc := 13%positive.

Definition returning (v : val) : method := fun _ => Returns v.

Definition world : heap_t :=
  list_to_map
    [ (Student, Object Plain (list_to_map
         [ ("findById", returning (VRef found));
           ("findAll", returning (VRef everyone));
           ("destroyAll", returning (VRef failing));
           ("touch", returning (VRef nothing));
           ("count", returning (VNum 2));
           ("getTableName", returning VUndef);
           ("build", fun _ => Throws (Error "sync boom")) ]));
      (student, Object (SequelizeInstance "Student") (list_to_map
         [ ("get", returning (VRef student_plain));
           ("getParents", returning (VRef parents_promise));
           ("previous", returning VNull);
           ("changed", returning (VBool false)) ]));
      (student_plain, plain_object);
      (parents_promise, Object (Promise (Fulfils (VRef parents))) ∅);
      (parents, Object (Array [VRef mother; VRef father]) ∅);
      (mother, Object (SequelizeInstance "Parent")
                      (list_to_map [("get", returning (VRef mother_plain))]));
      (father, Object (SequelizeInstance "Parent")
                      (list_to_map [("get", returning (VRef father_plain))]));
      (mother_plain, plain_object);
      (father_plain, plain_object);
      (found, Object (Promise (Fulfils (VRef student))) ∅);
      (failing, Object (Promise (Rejects (Error "boom"))) ∅);
      (nothing, Object (Promise (Fulfils VUndef)) ∅);
      (everyone, Object (Promise (Fulfils (VRef parents))) ∅) ].

Definition this : server :=
  Server (list_to_map [("t1", list_to_map [("Student", VRef Student)])]) ∅.


Definition fresh : conn := on_connection this world.

(** The connection after a call whose tenant is "MySql". *)
Definition clobbered : conn :=
  (serve (request "MySql" "MySql" "Student" "findById" [JNum 5]) fresh).1.

(** The connection after the first call of the README example. *)
Definition after_find : conn :=
  (serve (request "MySql" "t1" "Student" "findById" [JNum 5]) fresh).1.

End School.


(** ** Vocabulary of the further properties *)

(** A computation that leaves one component of the connection as it is. *)
Definition keeps {B A} (proj : conn -> B) (m : M A) : Prop :=
  forall c, proj (m c).1 = proj c.

(** Two objects that differ at most in the elements of an array, whose
    number is the same. *)
Definition same_shape_obj (o o' : object) : Prop :=
  members o = members o' /\
  match obj_kind o, obj_kind o' with
  | Array elems, Array elems' => length elems = length elems'
  | k, k' => k = k'
  end.

(** Two heaps with the same objects, up to the elements of arrays. *)
Definition same_shape (h h' : heap_t) : Prop :=
  forall l : loc, option_Forall2 same_shape_obj (h !! l) (h' !! l).

(** The outcome of [resolved] as [serve] reports it: run as the fulfilment
    callback of a promise, a throw is an unhandled rejection; run inside the
    handler's [try], a throw is caught and sent. *)
Definition settled_async (r : conn * (jserror + unit)) : conn * option jserror :=
  match r with
  | (c', inl e) => (c', Some e)
  | (c', inr _) => (c', None)
  end.

Definition settled_sync (r : conn * (jserror + unit)) : conn * option jserror :=
  match r with
  | (c', inl e) => (write (ErrorFrame (message e)) c', None)
  | (c', inr _) => (c', None)
  end.

(** The property key of the tenant of a chunk that initialises a cache. *)
Definition cache_key (chunk : inbound) : option string :=
  match chunk with
  | Unparsable _ => None
  | Parsed data =>
      if falsy data then None
      else if is_str (get_field data "db") "MySql" || is_str (get_field data "db") "Mongo"
           then Some (to_key (get_field data "tenant"))
           else None
  end.

(** A class whose finders come back with nothing, or with a hole. *)
Module Roster.

Definition Course : loc := 1%positive.
Definition none : loc := 2%positive.
Definition course : loc := 3%positive.
Definition course_plain : loc := 4%positive.
Definition holed : loc := 5%positive.
Definition later_none : loc := 6%positive.

Definition world : heap_t :=
  list_to_map
    [ (Course, Object Plain (list_to_map
         [ ("findAll", fun _ => Returns (VRef none));
           ("findSome", fun _ => Returns (VRef holed));
           ("findLater", fun _ => Returns (VRef later_none)) ]));
      (none, Object (Array []) ∅);
      (course, Object (SequelizeInstance "Course")
                      (list_to_map [("get", fun _ => Returns (VRef course_plain))]));
      (course_plain, plain_object);
      (holed, Object (Array [VRef course; VNull; VRef course]) ∅);
      (later_none, Object (Promise (Fulfils (VRef none))) ∅) ].

Definition this : server :=
  Server (list_to_map [("t1", list_to_map [("Course", VRef Course)])]) ∅.

Definition fresh : conn := on_connection this world.

End Roster.


(** A computation whose heap, when it ends, is related to the one it
    started with. *)
Definition heap_moves (R : heap_t -> heap_t -> Prop) {A} (m : M A) : Prop :=
  forall c, R (heap c) (heap (m c).1).

(** ** The client object: constructor, [mergeOptions], [connect], [end]

    A value of the client's own options is a JSON value or [undefined]
    (functions, dates and cycles are left out, so [JSON.stringify] does not
    throw).  The text [mergeOptions] returns is given by the JSON value it
    denotes, which is what the server's [JSON.parse] makes of it.  The socket
    is known by the calls made on it and by its [once] listeners. *)

Module ClientObject.

(** [typeof v === 'object'] *)
Definition typeof_object (v : jsvalue) : bool :=
  match v with
  | Some JNull | Some (JArr _) | Some (JObj _) => true
  | _ => false
  end.

(** [v.name] *)
Definition prop_of (v : jsvalue) (name : string) : jserror + jsvalue :=
  match v with
  | None => inl (cannot_read name "undefined")
  | Some JNull => inl (cannot_read name "null")
  | Some j => inr (get_field j name)
  end.

(** [a || b] picks [a] when it is truthy. *)
Definition truthy (v : jsvalue) : bool :=
  match v with
  | None => false
  | Some j => negb (falsy j)
  end.

(** The constructor's choice of the encoding it hands to
    [socket.setEncoding]. *)
Definition encoding_of (options : jsvalue) : jserror + jsvalue :=
  if typeof_object options then
    match prop_of options "encoding" with
    | inl e => inl e
    | inr None => inr (Some (JStr "utf8"))
    | inr (Some _) => prop_of options "ecoding"
    end
  else inr (Some (JStr "utf8")).

(** What [JSON.stringify] keeps of an object: the properties that are not
    [undefined], in insertion order. *)
Definition stringified (entries : list (string * jsvalue)) : json :=
  JObj (omap (fun entry => match snd entry with
                           | Some v => Some (fst entry, v)
                           | None => None
                           end) entries).

(** [Array.isArray(options.params) ? options.params : [options.params]], as
    [JSON.stringify] writes it: an [undefined] element is written [null]. *)
Definition merged_params (params : jsvalue) : json :=
  match params with
  | Some (JArr items) => JArr items
  | Some p => JArr [p]
  | None => JArr [JNull]
  end.

(** [mergeOptions({db: db}, options)]: [inl] is a throw. *)
Definition mergeOptions (db : string) (options : jsvalue) : jserror + json :=
  match prop_of options "tenant" with
  | inl e => inl e
  | inr tenant =>
      match prop_of options "model", prop_of options "method", prop_of options "params" with
      | inr model, inr method, inr params =>
          inr (stringified [("db", Some (JStr db)); ("tenant", tenant); ("model", model);
                            ("method", method); ("params", Some (merged_params params))])
      | inl e, _, _ | _, inl e, _ | _, _, inl e => inl e
      end
  end.

(** A call made on the socket. *)
Inductive call : Type :=
| CallSetEncoding (encoding : jsvalue)
| CallConnect (options : jsvalue)
| CallEnd
| CallWrite (data : json).

(** The client, its socket and the promises its executors made, in the
    order they were made: [None] is a pending promise. *)
Record session : Type := Session {
  has_socket : bool;
  options : jsvalue;
  calls : list call;
  data_once : list nat;
  error_once : list nat;
  promises : list (option (Client.reason + inbound))
}.

(** [new ModelClient(options)] *)
Definition construct (opts : jsvalue) : jserror + session :=
  match encoding_of opts with
  | inl e => inl e
  | inr encoding => inr (Session true opts [CallSetEncoding encoding; CallConnect opts] [] [] [])
  end.

(** [connect(options)] *)
Definition connect (opts : jsvalue) (s : session) : jserror + session :=
  let opts := if truthy opts then opts else options s in
  if has_socket s
  then inr (Session true opts (calls s ++ [CallConnect opts]) (data_once s) (error_once s)
                    (promises s))
  else inl (cannot_read "connect" "undefined").

(** [end()]: [this.socket.end(); delete this.socket;] *)
Definition end_ (s : session) : jserror + session :=
  if has_socket s
  then inr (Session false (options s) (calls s ++ [CallEnd]) (data_once s) (error_once s)
                    (promises s))
  else inl (cannot_read "end" "undefined").

(** [resolve] or [reject] on a promise: nothing if it is settled already. *)
Definition settle (r : Client.reason + inbound) (ps : list (option (Client.reason + inbound)))
           (id : nat) : list (option (Client.reason + inbound)) :=
  match ps !! id with
  | Some None => <[id := Some r]> ps
  | _ => ps
  end.

(** [_write(data)]; the new promise is the last of [promises].  [write_ok]
    is what [socket.write] returns. *)
Definition _write (data : jserror + json) (write_ok : bool) (s : session) : session :=
  match data with
  | inl err =>
      Session (has_socket s) (options s) (calls s) (data_once s) (error_once s)
              (promises s ++ [Some (inl (Client.ByError err))])
  | inr d =>
      if has_socket s then
        let id := length (promises s) in
        Session true (options s) (calls s ++ [CallWrite d])
                (data_once s ++ [id]) (error_once s ++ [id])
                (promises s ++ [if write_ok then None
                                else Some (inl (Client.ByString Client.waiting_for_drain))])
      else
        Session false (options s) (calls s) (data_once s) (error_once s)
                (promises s ++ [Some (inl (Client.ByError (cannot_read "once" "undefined")))])
  end.

(** [MySql(options)], [Mongo(options)], [data(options)], [dataSet(options)]:
    [_write(mergeOptions({db: db}, options))]. *)
Definition call_method (db : string) (opts : jsvalue) (write_ok : bool) (s : session)
  : jserror + session :=
  match mergeOptions db opts with
  | inl e => inl e
  | inr wire => inr (_write (inr wire) write_ok s)
  end.

(** The socket emits an event: every [once] listener of that event runs
    and is removed. *)
Definition emit (ev : Client.socket_event) (s : session) : session :=
  match ev with
  | Client.DataEvent chunk =>
      Session (has_socket s) (options s) (calls s) [] (error_once s)
              (foldl (settle (inr chunk)) (promises s) (data_once s))
  | Client.ErrorEvent e =>
      Session (has_socket s) (options s) (calls s) (data_once s) []
              (foldl (settle (inl (Client.ByError e))) (promises s) (error_once s))
  end.

(** The state of the promise a request method returned: the executor's
    promise followed by [.then(JSON.parse)]. *)
Definition result (s : session) (id : nat) : Client.promise_state :=
  Client.then_parse (default None (promises s !! id)).

(** What a program does with a client, and what befalls it. *)
Inductive step : Type :=
| Request (db : string) (opts : jsvalue) (write_ok : bool)
| Event (ev : Client.socket_event)
| Reconnect (opts : jsvalue)
| Close.

(** A step that throws leaves the client as it was. *)
Definition do_step (s : session) (st : step) : session :=
  match st with
  | Request db opts write_ok =>
      match call_method db opts write_ok s with inr s' => s' | inl _ => s end
  | Event ev => emit ev s
  | Reconnect opts => match connect opts s with inr s' => s' | inl _ => s end
  | Close => match end_ s with inr s' => s' | inl _ => s end
  end.

Definition run (steps : list step) (s : session) : session := foldl do_step s steps.

(** Every pending promise still has both its listeners. *)
Definition listening (s : session) : Prop :=
  forall id, promises s !! id = Some None -> id ∈ data_once s /\ id ∈ error_once s.

(** A step other than an [error] event or [end()]. *)
Definition quiet (st : step) : bool :=
  match st with
  | Event (Client.ErrorEvent _) | Close => false
  | _ => true
  end.

(** What an event settles a pending promise with. *)
Definition settlement_of (ev : Client.socket_event) : Client.reason + inbound :=
  match ev with
  | Client.DataEvent chunk => inr chunk
  | Client.ErrorEvent e => inl (Client.ByError e)
  end.

End ClientObject.

(** A document provider: one tenant, one model. *)
Module Library.

Definition Book : loc := 1%positive.
Definition book : loc := 2%positive.
Definition book_plain : loc := 3%positive.
Definition found : loc := 4%positive.
Definition borrowers : loc := 5%positive.

Definition world : heap_t :=
  list_to_map
    [ (Book, Object Plain (list_to_map
         [ ("findOne", fun _ => Returns (VRef found));
           ("count", fun _ => Returns (VNum 3)) ]));
      (book, Object (MongooseDocument "Book") (list_to_map
         [ ("toJSON", fun _ => Returns (VRef book_plain));
           ("pages", fun _ => Returns (VNum 200)) ]));
      (book_plain, plain_object);
      (found, Object (Promise (Fulfils (VRef book))) ∅) ].

Definition this : server :=
  Server ∅ (list_to_map [("t1", fun _ : jsvalue => Returns (VRef Book))]).

Definition fresh : conn := on_connection this world.

End Library.

(** ** Where the embedding follows the code

    [socket[tenant] = ...] writes on the [net.Socket] object itself, and the
    caches, the providers and the records are JavaScript objects with
    prototypes.  The embedding keeps the socket's own machinery apart from
    the properties the handler installs, and an object has only the members
    listed for it.  The two agree as long as no name in play is the name of
    a built-in member; the lists below err on the side of more names. *)

(** Members of a [net.Socket]: its own properties and those it inherits
    from [net.Socket.prototype], the stream prototypes and
    [EventEmitter.prototype]. *)
Definition socket_members : list string :=
  [ "addListener"; "on"; "once"; "prependListener"; "prependOnceListener";
    "removeListener"; "off"; "removeAllListeners"; "setMaxListeners";
    "getMaxListeners"; "listeners"; "rawListeners"; "emit"; "listenerCount";
    "eventNames"; "domain";
    "pipe"; "read"; "push"; "unshift"; "isPaused"; "setEncoding"; "unpipe";
    "resume"; "pause"; "wrap"; "destroy"; "readable"; "readableDidRead";
    "readableAborted"; "readableHighWaterMark"; "readableBuffer";
    "readableFlowing"; "readableLength"; "readableObjectMode";
    "readableEncoding"; "readableEnded"; "errored"; "closed"; "destroyed";
    "iterator"; "map"; "filter"; "forEach"; "toArray"; "some"; "find"; "every";
    "flatMap"; "drop"; "take"; "asIndexedPairs"; "reduce"; "compose";
    "write"; "cork"; "uncork"; "setDefaultEncoding"; "end"; "writable";
    "writableHighWaterMark"; "writableBuffer"; "writableLength";
    "writableFinished"; "writableCorked"; "writableEnded";
    "writableObjectMode"; "writableNeedDrain"; "writableAborted";
    "allowHalfOpen";
    "connect"; "setTimeout"; "setNoDelay"; "setKeepAlive"; "address"; "unref";
    "ref"; "destroySoon"; "resetAndDestroy"; "listen"; "bufferSize";
    "bytesRead"; "bytesWritten"; "connecting"; "pending"; "readyState";
    "localAddress"; "localPort"; "localFamily"; "remoteAddress";
    "remoteFamily"; "remotePort"; "timeout";
    "autoSelectFamilyAttemptedAddresses"; "server"; "fd"; "ondata"; "onend" ].

(** Members of the built-in prototypes: [Object], [Function], [Array],
    [String], [Number], [Boolean] and [Promise]. *)
Definition prototype_members : list string :=
  [ "constructor"; "hasOwnProperty"; "isPrototypeOf"; "propertyIsEnumerable";
    "toLocaleString"; "toString"; "valueOf";
    "apply"; "bind"; "call"; "length"; "name"; "arguments"; "caller";
    "prototype";
    "at"; "concat"; "copyWithin"; "entries"; "every"; "fill"; "filter"; "find";
    "findIndex"; "findLast"; "findLastIndex"; "flat"; "flatMap"; "forEach";
    "includes"; "indexOf"; "join"; "keys"; "lastIndexOf"; "map"; "pop"; "push";
    "reduce"; "reduceRight"; "reverse"; "shift"; "slice"; "some"; "sort";
    "splice"; "toReversed"; "toSorted"; "toSpliced"; "unshift"; "values";
    "with"; "group"; "groupBy"; "groupToMap";
    "charAt"; "charCodeAt"; "codePointAt"; "endsWith"; "localeCompare";
    "match"; "matchAll"; "normalize"; "padEnd"; "padStart"; "repeat";
    "replace"; "replaceAll"; "search"; "split"; "startsWith"; "substr";
    "substring"; "toLocaleLowerCase"; "toLocaleUpperCase"; "toLowerCase";
    "toUpperCase"; "trim"; "trimStart"; "trimEnd"; "trimLeft"; "trimRight";
    "isWellFormed"; "toWellFormed"; "anchor"; "big"; "blink"; "bold"; "fixed";
    "fontcolor"; "fontsize"; "italics"; "link"; "small"; "strike"; "sub";
    "sup";
    "toExponential"; "toFixed"; "toPrecision";
    "then"; "catch"; "finally" ].

(** [k] may name a built-in member: it is one of the names above, or it
    starts with an underscore, as the internal members of the runtime do
    ([_events], [_handle], [__proto__], ...). *)
Definition builtin (k : string) : bool :=
  match k with
  | String "_" _ => true
  | _ => bool_decide (k ∈ socket_members) || bool_decide (k ∈ prototype_members)
  end.

(** No property the handler has put on the socket bears a built-in name:
    the socket's own members are what they were. *)
Definition socket_intact (c : conn) : bool :=
  forallb (fun k => negb (builtin k)) (elements (dom (props c))).

(** The tenant, the model and the method of a message are not built-in
    names. *)
Definition plain_names (data : json) : bool :=
  negb (builtin (to_key (get_field data "tenant")))
  && negb (builtin (to_key (get_field data "model")))
  && negb (builtin (to_key (get_field data "method"))).

(** ** The life of a connection

    The connection handler sets the timeout and subscribes two listeners:
    the data handler, and [socket.on('timeout', () => { socket.destroy(); })].
    Nothing else in the server closes a connection. *)

Record link : Type := Link {
  sock : conn;
  destroyed : bool
}.

Inductive arrival : Type :=
| Data (chunk : inbound)
| Timeout.

(** An event on the socket, each request served to its end; a destroyed
    socket emits no data. *)
Definition deliver (ev : arrival) (l : link) : link * option jserror :=
  match ev with
  | Timeout => (Link (sock l) true, None)
  | Data chunk =>
      if destroyed l then (l, None)
      else (Link (serve chunk (sock l)).1 false, (serve chunk (sock l)).2)
  end.

(** ** Names and keys the embedding renders exactly *)



(** A name whose first character is ASCII, where [toLowerCase] is
    [lower_ascii]. *)
Definition ascii_first (name : string) : bool :=
  match name with
  | EmptyString => true
  | String a _ => (nat_of_ascii a <? 128)%nat
  end.

(** The record, if it bears a model name, bears one that starts in ASCII. *)
Definition ascii_named (h : heap_t) (record : val) : bool :=
  match record with
  | VRef l =>
      match obj_kind (deref h l) with
      | SequelizeInstance name => ascii_first name
      | MongooseDocument modelName => ascii_first modelName
      | _ => true
      end
  | _ => true
  end.



(** * Properties *)

(** ** The monad *)

Lemma bind_throws {A B} (m : M A) (k : A -> M B) c c' e :
  m c = (c', inl e) -> bind m k c = (c', inl e).
Proof. unfold bind. intros ->. reflexivity. Qed.

Lemma bind_returns {A B} (m : M A) (k : A -> M B) c c' a :
  m c = (c', inr a) -> bind m k c = k a c'.
Proof. unfold bind. intros ->. reflexivity. Qed.

Lemma catch_send_throws (m : M reaction) c c' e :
  m c = (c', inl e) -> catch_send m c = (write (ErrorFrame (message e)) c', inr Done).
Proof. unfold catch_send, try_catch. intros ->. reflexivity. Qed.

Lemma catch_send_returns (m : M reaction) c c' r :
  m c = (c', inr r) -> catch_send m c = (c', inr r).
Proof. unfold catch_send, try_catch. intros ->. reflexivity. Qed.

(** The invocation expressions read the connection and leave it as it is. *)
Lemma socket_get2_reads a b next c : (socket_get2 a b next c).1 = c.
Proof.
  unfold socket_get2; unfold_M.
  destruct (props c !! a) as [s|]; [destruct (slot_get s b)|]; reflexivity.
Qed.

Lemma call_target_reads db tenant model method params c :
  (call_target db tenant model method params c).1 = c.
Proof.
  unfold call_target.
  set (a := if is_cached db then _ else _). set (b := if is_cached db then _ else _).
  pose proof (socket_get2_reads a b (to_key model) c) as H.
  unfold bind at 1. destruct (socket_get2 a b (to_key model) c) as [c' [e|x]]; simpl in *; subst.
  - reflexivity.
  - unfold_M. destruct (invoke _ _ _ _); reflexivity.
Qed.

Lemma call_mongo_reads db tenant model method params c :
  (call_mongo db tenant model method params c).1 = c.
Proof.
  unfold call_mongo.
  pose proof (socket_get2_reads (to_key db) (to_key tenant) "model" c) as H.
  unfold bind at 1. destruct (socket_get2 _ _ _ c) as [c' [e|x]]; simpl in *; subst.
  - reflexivity.
  - unfold_M. destruct x as [m|connection]; [reflexivity|].
    destruct (connection model) as [e|cls]; unfold_M; simpl; [reflexivity|].
    destruct (invoke (heap c) cls (to_key method) params); reflexivity.
Qed.

Lemma invocation_reads db tenant model method params c :
  (invocation db tenant model method params c).1 = c.
Proof.
  unfold invocation. destruct (is_str db "Mongo");
    [apply call_mongo_reads | apply call_target_reads].
Qed.

Lemma invocation_eq db tenant model method params c c' r :
  invocation db tenant model method params c = (c', r) ->
  invocation db tenant model method params c = (c, r).
Proof.
  intros H. pose proof (invocation_reads db tenant model method params c) as E.
  rewrite H in E. simpl in E. subst. exact H.
Qed.

(** The data handler on a parsed, truthy message with a provider of the
    enum: the cache is initialised for a direct provider, then the branch
    runs under its [catch]. *)
Lemma on_data_dispatch data c :
  falsy data = false ->
  provider_enum (get_field data "db") = true ->
  let db := get_field data "db" in
  let tenant := get_field data "tenant" in
  let model := get_field data "model" in
  let method := get_field data "method" in
  let params := normalize_params (get_field data "params") in
  on_data (Parsed data) c =
  (if is_str db "Mongo"
   then catch_send (mongo_branch db tenant model method params)
   else catch_send (direct_branch db tenant model method params)) (dispatched db tenant c).
Proof.
  intros Hf He. simpl. rewrite Hf. unfold dispatched.
  destruct (is_cached (get_field data "db")) eqn:Hc; [reflexivity|].
  unfold provider_enum, is_cached in *.
  destruct (is_str (get_field data "db") "MySql"), (is_str (get_field data "db") "Mongo");
    simpl in *; try reflexivity.
  rewrite He in Hc. discriminate.
Qed.

(** ** Rejected messages *)

Lemma not_enum_not_cached db : provider_enum db = false -> is_cached db = false.
Proof.
  unfold provider_enum, is_cached.
  destruct (is_str db "MySql"), (is_str db "Mongo"), (is_str db "data"),
    (is_str db "dataSets"); simpl; congruence.
Qed.

Lemma rejected_parsed data c :
  falsy data = true \/ provider_enum (get_field data "db") = false ->
  on_data (Parsed data) c = (write (ErrorFrame "Signature does not match.") c, inr Done).
Proof.
  intros [Hf|He]; simpl.
  - rewrite Hf. reflexivity.
  - destruct (falsy data); [reflexivity|].
    rewrite (not_enum_not_cached _ He).
    unfold provider_enum in He.
    destruct (is_str (get_field data "db") "MySql"),
      (is_str (get_field data "db") "Mongo"); simpl in *; try discriminate.
    reflexivity.
Qed.

(** C5, as stated, fails: a message without [tenant] is [malformed], yet the
    handler initialises a cache under the key "undefined" and answers with
    the [TypeError] of the failed lookup; and the answer to a chunk that is
    not JSON carries the parser's message. *)
Lemma missing_tenant_is_dispatched :
  let chunk := Parsed (JObj [("db", JStr "MySql"); ("model", JStr "Student");
                             ("method", JStr "findById")]) in
  let bad := Unparsable (SyntaxError "Unexpected token h in JSON at position 0") in
  malformed chunk = true /\
  written (on_data chunk School.fresh).1
  = [ErrorFrame "Cannot read property 'Student' of undefined"] /\
  props School.fresh !! "undefined" = None /\
  (exists d ds, props (on_data chunk School.fresh).1 !! "undefined" = Some (SCache d ds)) /\
  malformed bad = true /\
  written (on_data bad School.fresh).1
  = [ErrorFrame "Unexpected token h in JSON at position 0"].
Proof.
  repeat split; try (vm_compute; reflexivity).
  eexists _, _. vm_compute. reflexivity.
Qed.

(** ** Failing invocations *)

Lemma serve_invocation_throws (data : json) (c c1 : conn) (e : jserror) :
  let db := get_field data "db" in
  let tenant := get_field data "tenant" in
  falsy data = false ->
  provider_enum db = true ->
  invocation db tenant (get_field data "model") (get_field data "method")
             (normalize_params (get_field data "params")) (dispatched db tenant c)
  = (c1, inl e) ->
  serve (Parsed data) c
  = (write (ErrorFrame (message e)) (dispatched db tenant c), None).
Proof.
  intros db tenant Hf He Hi. apply invocation_eq in Hi.
  unfold serve. rewrite on_data_dispatch by assumption.
  fold db tenant. unfold invocation in Hi.
  destruct (is_str db "Mongo").
  - erewrite catch_send_throws; [reflexivity|].
    unfold mongo_branch. apply bind_throws. exact Hi.
  - erewrite catch_send_throws; [reflexivity|].
    unfold direct_branch. apply bind_throws. exact Hi.
Qed.


(** ** Rejected promises *)

(** C2 at a failing input: [destroyAll] returns a promise that rejects with
    "boom".  Nothing is written on the connection, and the rejection is left
    unhandled. *)
Theorem rejection_unanswered :
  let r := serve (request "MySql" "t1" "Student" "destroyAll" []) School.fresh in
  written r.1 = [] /\ r.2 = Some (Error "boom").
Proof. split; vm_compute; reflexivity. Qed.

(** The same for every request: a rejection reaches no handler. *)
Lemma on_settle_rejects e db tenant c :
  on_settle (Await (Rejects e) db tenant) c = (c, Some e).
Proof. reflexivity. Qed.

(** A request whose invocation returns a promise that rejects: nothing is
    written, and the rejection is unhandled. *)
Lemma serve_rejection (data : json) (c c1 : conn) (l : loc) (ms : gmap string method)
      (e : jserror) :
  let db := get_field data "db" in
  let tenant := get_field data "tenant" in
  falsy data = false ->
  provider_enum db = true ->
  invocation db tenant (get_field data "model") (get_field data "method")
             (normalize_params (get_field data "params")) (dispatched db tenant c)
  = (c1, inr (VRef l)) ->
  heap c !! l = Some (Object (Promise (Rejects e)) ms) ->
  serve (Parsed data) c = (dispatched db tenant c, Some e).
Proof.
  intros db tenant Hf He Hi Hl. apply invocation_eq in Hi.
  assert (heap (dispatched db tenant c) = heap c) as Hh
      by (unfold dispatched; destruct (is_cached db); reflexivity).
  unfold serve. rewrite on_data_dispatch by assumption.
  fold db tenant. unfold invocation in Hi.
  destruct (is_str db "Mongo").
  - unfold catch_send, try_catch, mongo_branch. unfold bind at 1. rewrite Hi.
    unfold bind, get, lift, ret, then_of, deref. rewrite Hh, Hl. reflexivity.
  - unfold catch_send, try_catch, direct_branch. unfold bind at 1. rewrite Hi.
    unfold bind, get, lift, ret, thenable, deref. rewrite Hh, Hl. reflexivity.
Qed.

(** ** Results that are [undefined] *)

(** C7 at a failing input.  [touch] returns a promise fulfilled with
    [undefined]: [resolved] makes it [null], then [_getModelName] reads
    [null.Model]; no response is written.  [getTableName] returns
    [undefined] at once: the same [TypeError] is caught and sent as an error
    response. *)
Theorem undefined_from_provider :
  let r := serve (request "MySql" "t1" "Student" "touch" []) School.fresh in
  let r' := serve (request "MySql" "t1" "Student" "getTableName" []) School.fresh in
  written r.1 = [] /\
  r.2 = Some (cannot_read "Model" "null") /\
  written r'.1 = [ErrorFrame "Cannot read property 'Model' of null"] /\
  r'.2 = None.
Proof. repeat split; vm_compute; reflexivity. Qed.

(** For [MySql] and [Mongo], [resolved] throws on [undefined] and on
    [null], whatever the connection. *)
Lemma resolved_undefined_direct db tenant c d ds :
  is_cached db = false ->
  props c !! to_key tenant = Some (SCache d ds) ->
  resolved db tenant VUndef c = (c, inl (cannot_read "Model" "null")) /\
  resolved db tenant VNull c = (c, inl (cannot_read "Model" "null")).
Proof.
  intros Hc Hslot.
  split; unfold resolved, store; cbn [or_null]; unfold bind, get, lift, throw;
    cbn [as_array]; rewrite Hc; cbn [negb]; rewrite Hslot; reflexivity.
Qed.

(** For [data] and [dataSets] the value is sent as [null]. *)
Lemma resolved_undefined_cached db tenant c :
  is_cached db = true ->
  resolved db tenant VUndef c = (write (Payload VNull) c, inr tt).
Proof.
  intros Hc. unfold resolved. unfold_M. simpl. rewrite Hc. simpl.
  unfold _getPlainObject.
  unfold is_cached in Hc.
  assert (is_str db "MySql" = false /\ is_str db "Mongo" = false) as [-> ->].
  { destruct db as [[| | |s| |]|]; simpl in *; try discriminate.
    repeat case_decide; subst; try discriminate; auto. }
  reflexivity.
Qed.

(** ** The client *)

(** C8, as amended.  When the write is accepted and the next event on the
    socket is an inbound message, the pending result settles with what
    [JSON.parse] makes of that message: it completes with the parsed value,
    and fails only if the message does not parse.  An error message
    [{error: msg}] parses, so the pending result completes with that object
    as its value. *)
Theorem write_settles_with_next_message :
  (forall (req : string) (chunk : inbound) (later : list Client.socket_event),
      Client._write (inr req) true (Client.DataEvent chunk :: later)
      = match chunk with
        | Unparsable err => Client.Rejected (Client.ByError err)
        | Parsed value => Client.Fulfilled value
        end) /\
  (forall (req msg : string) (later : list Client.socket_event),
      Client._write (inr req) true
                    (Client.DataEvent (Parsed (Client.error_message msg)) :: later)
      = Client.Fulfilled (Client.error_message msg)).
Proof.
  split.
  - intros req [err|value] later; reflexivity.
  - intros req msg later. reflexivity.
Qed.

(** C8, as stated, fails: the server's answer [{error: "boom"}] does not
    make the pending result fail. *)
Lemma error_message_fulfils :
  Client._write (inr "{}") true [Client.DataEvent (Parsed (Client.error_message "boom"))]
  = Client.Fulfilled (JObj [("error", JStr "boom")]).
Proof. reflexivity. Qed.

(** The other ways the pending result settles. *)
Lemma write_not_accepted req events :
  Client._write (inr req) false events
  = Client.Rejected (Client.ByString Client.waiting_for_drain).
Proof. reflexivity. Qed.

Lemma write_socket_error req e later :
  Client._write (inr req) true (Client.ErrorEvent e :: later)
  = Client.Rejected (Client.ByError e).
Proof. reflexivity. Qed.

(** ** A call on the cached record *)

(** The README example: the student is stored under "student", and
    [getParents] on the cached record answers with the parents. *)
Example readme_flow :
  let c := School.after_find in
  let r := serve (request "data" "t1" "student" "getParents" []) c in
  written c = [Payload (VRef School.student_plain)] /\
  cached c "t1" "data" "student" = Some (VRef School.student) /\
  written r.1 = [Payload (VRef School.student_plain); Payload (VRef School.parents)] /\
  r.2 = None.
Proof. repeat split; vm_compute; reflexivity. Qed.

(** C1 at a failing input.  [previous] exists on the cached student and
    returns [null]; the handler tests [typeof promise === 'object'], which
    holds of [null], reads [null.then], and answers with that [TypeError]
    instead of the method's result. *)
Theorem cached_method_returning_null :
  let c := School.after_find in
  let r := serve (request "data" "t1" "student" "previous" []) c in
  cached c "t1" "data" "student" = Some (VRef School.student) /\
  invoke (heap c) (VRef School.student) "previous" [] = Returns VNull /\
  written r.1 = (written c ++ [ErrorFrame "Cannot read property 'then' of null"])%list.
Proof. repeat split; vm_compute; reflexivity. Qed.

(** ** Normalisation in place *)

Lemma conn_eta c : Conn (props c) (heap c) (written c) = c.
Proof. destruct c; reflexivity. Qed.

(** Rewriting the elements of an array leaves every member table alone. *)
Lemma member_insert_array h l k k' ms x name :
  h !! l = Some (Object k ms) ->
  member (<[l := Object k' ms]> h) x name = member h x name.
Proof.
  intros Hl. destruct x as [| | | | |l']; try reflexivity.
  unfold member, deref. destruct (decide (l = l')) as [<-|Hne].
  - rewrite lookup_insert_eq, Hl. reflexivity.
  - rewrite lookup_insert_ne by assumption. reflexivity.
Qed.

Lemma getPlainObject_insert_array h l k k' ms x db :
  h !! l = Some (Object k ms) ->
  _getPlainObject (<[l := Object k' ms]> h) x db = _getPlainObject h x db.
Proof.
  intros Hl. unfold _getPlainObject, extract.
  rewrite !(member_insert_array h l k k' ms x _ Hl). reflexivity.
Qed.

Lemma set_elem_array h l elems ms index v :
  h !! l = Some (Object (Array elems) ms) ->
  set_elem h l index v = <[l := Object (Array (<[index := v]> elems)) ms]> h.
Proof. unfold set_elem. intros ->. reflexivity. Qed.

(** [forEach] on the array at [l]: [done] are the elements already
    replaced, [todo] those still to visit, [plains] what
    [_getPlainObject] makes of them. *)
Lemma normalize_each_ok db l ms :
  forall (todo plains done : list val) (c : conn),
    heap c !! l = Some (Object (Array (done ++ todo)%list) ms) ->
    Forall2 (fun e p => _getPlainObject (heap c) e db = inr p) todo plains ->
    normalize_each db l (length done) todo c
    = (set_heap (<[l := Object (Array (done ++ plains)%list) ms]> (heap c)) c, inr tt).
Proof.
  induction todo as [|e rest IH]; intros plains done c Hl Hall.
  - inversion Hall; subst. simpl. unfold ret, set_heap.
    rewrite insert_id by exact Hl. rewrite conn_eta. reflexivity.
  - inversion Hall as [|? p ? ps Hp Hrest]; subst. simpl.
    unfold_M. simpl. rewrite Hp. simpl.
    rewrite (set_elem_array _ _ _ _ _ _ Hl).
    assert (<[length done := p]> (done ++ e :: rest)%list = ((done ++ [p]) ++ rest)%list) as ->.
    { rewrite insert_app_r_alt by lia. rewrite Nat.sub_diag. simpl.
      rewrite <- app_assoc. reflexivity. }
    specialize (IH ps (done ++ [p])%list
                   (set_heap (<[l := Object (Array ((done ++ [p]) ++ rest)%list) ms]> (heap c)) c)).
    rewrite length_app in IH. simpl in IH. rewrite Nat.add_1_r in IH.
    rewrite IH.
    + unfold set_heap. simpl. rewrite insert_insert_eq, <- app_assoc. reflexivity.
    + simpl. apply lookup_insert_eq.
    + simpl. eapply Forall2_impl; [exact Hrest|].
      intros x y Hxy. cbv beta. rewrite (getPlainObject_insert_array _ _ _ _ _ _ _ Hl).
      exact Hxy.
Qed.

Lemma direct_not_cached db :
  is_str db "MySql" = true \/ is_str db "Mongo" = true -> is_cached db = false.
Proof.
  unfold is_cached. destruct db as [[| | |s| |]|]; simpl; try (intros [?|?]; discriminate).
  repeat case_decide; subst; simpl; try discriminate; intros [?|?]; try discriminate; reflexivity.
Qed.

(** ** Which properties of the socket a request can change *)

Lemma keeps_ret {A} (a : A) : keeps_props (ret a).
Proof. intros c; reflexivity. Qed.
Lemma keeps_throw {A} e : keeps_props (@throw A e).
Proof. intros c; reflexivity. Qed.
Lemma keeps_lift {A} (r : jserror + A) : keeps_props (lift r).
Proof. intros c; reflexivity. Qed.
Lemma keeps_get : keeps_props get.
Proof. intros c; reflexivity. Qed.
Lemma keeps_write f : keeps_props (modify (write f)).
Proof. intros c; reflexivity. Qed.
Lemma keeps_set_heap h : keeps_props (modify (set_heap h)).
Proof. intros c; reflexivity. Qed.

Lemma props_bind {A B} (m : M A) (k : A -> M B) c :
  (forall a, keeps_props (k a)) -> props (bind m k c).1 = props (m c).1.
Proof.
  intros Hk. unfold bind. destruct (m c) as [c' [e|a]]; [reflexivity|]. apply Hk.
Qed.

Lemma keeps_bind {A B} (m : M A) (k : A -> M B) :
  keeps_props m -> (forall a, keeps_props (k a)) -> keeps_props (bind m k).
Proof. intros Hm Hk c. rewrite props_bind by assumption. apply Hm. Qed.

Lemma props_try_catch {A} (m : M A) (handler : jserror -> M A) c :
  (forall e, keeps_props (handler e)) -> props (try_catch m handler c).1 = props (m c).1.
Proof.
  intros Hh. unfold try_catch. destruct (m c) as [c' [e|a]]; [apply Hh|reflexivity].
Qed.

Lemma keeps_try_catch {A} (m : M A) (handler : jserror -> M A) :
  keeps_props m -> (forall e, keeps_props (handler e)) -> keeps_props (try_catch m handler).
Proof. intros Hm Hh c. rewrite props_try_catch by assumption. apply Hm. Qed.

Lemma keeps_sendError e : keeps_props (sendError e).
Proof. intros c; reflexivity. Qed.

Lemma keeps_write_json v : keeps_props (write_json v).
Proof. destruct v; intros c; reflexivity. Qed.

Lemma keeps_returned o : keeps_props (returned o).
Proof. destruct o; intros c; reflexivity. Qed.

Lemma keeps_normalize_each db l todo : forall index, keeps_props (normalize_each db l index todo).
Proof.
  induction todo as [|e rest IH]; intros index; simpl.
  - apply keeps_ret.
  - apply keeps_bind; [apply keeps_get|]. intros c.
    apply keeps_bind; [apply keeps_lift|]. intros plain.
    apply keeps_bind; [apply keeps_set_heap|]. intros _. apply IH.
Qed.

Lemma keeps_invocation db tenant model method params :
  keeps_props (invocation db tenant model method params).
Proof. intros c. rewrite invocation_reads. reflexivity. Qed.

Lemma keeps_call_target db tenant model method params :
  keeps_props (call_target db tenant model method params).
Proof. intros c. rewrite call_target_reads. reflexivity. Qed.

Lemma keeps_call_mongo db tenant model method params :
  keeps_props (call_mongo db tenant model method params).
Proof. intros c. rewrite call_mongo_reads. reflexivity. Qed.

Lemma props_store_cache tenant which (x : jserror + string) record d ds c :
  props c !! tenant = Some (SCache d ds) ->
  props (store tenant which (lift x) record c).1
  = match x with
    | inl _ => props c
    | inr name =>
        if decide (which = "data")
        then <[tenant := SCache (<[name := record]> d) ds]> (props c)
        else <[tenant := SCache d (<[name := record]> ds)]> (props c)
    end.
Proof.
  intros Hslot. unfold store, bind at 1, get at 1. rewrite Hslot.
  unfold bind, lift. destruct x as [e|name]; [reflexivity|].
  destruct (decide (which = "data")); reflexivity.
Qed.

(** After the store, [resolved] only touches the heap and the socket's
    output. *)
Lemma props_resolved db tenant record c :
  props (resolved db tenant record c).1
  = props ((if negb (is_cached db) then
              match as_array (heap c) (or_null record) with
              | Some elems =>
                  store (to_key tenant) "dataSets"
                        (lift (_getModelName (heap c) (default VUndef (elems !! 0%nat))))
                        (or_null record)
              | None =>
                  store (to_key tenant) "data"
                        (lift (_getModelName (heap c) (or_null record))) (or_null record)
              end
            else ret tt) c).1.
Proof.
  unfold resolved. unfold bind at 1, get at 1.
  rewrite props_bind; [reflexivity|].
  intros _. apply keeps_bind.
  - destruct (as_array (heap c) (or_null record)) as [elems|];
      [destruct (or_null record)|];
      repeat first [ apply keeps_bind | apply keeps_get | apply keeps_lift
                   | apply keeps_normalize_each | apply keeps_ret | intros ? ].
  - intros r. apply keeps_try_catch; [apply keeps_write_json | apply keeps_sendError].
Qed.

Lemma props_resolved_cached db tenant record c :
  is_cached db = true -> props (resolved db tenant record c).1 = props c.
Proof. intros Hc. rewrite props_resolved, Hc. reflexivity. Qed.

Lemma props_resolved_direct db tenant record c d ds :
  is_cached db = false ->
  props c !! to_key tenant = Some (SCache d ds) ->
  exists s, stored_at_most (or_null record) d ds s /\
            props (resolved db tenant record c).1 = <[to_key tenant := s]> (props c).
Proof.
  intros Hc Hslot. rewrite props_resolved, Hc. cbn [negb].
  destruct (as_array (heap c) (or_null record)) as [elems|];
    rewrite (props_store_cache _ _ _ _ _ _ _ Hslot).
  - destruct (_getModelName _ _) as [e|name].
    + exists (SCache d ds). split; [left; reflexivity|]. symmetry. apply insert_id, Hslot.
    + rewrite decide_False by discriminate.
      eexists. split; [right; right; exists name; reflexivity|reflexivity].
  - destruct (_getModelName _ _) as [e|name].
    + exists (SCache d ds). split; [left; reflexivity|]. symmetry. apply insert_id, Hslot.
    + rewrite decide_True by reflexivity.
      eexists. split; [right; left; exists name; reflexivity|reflexivity].
Qed.

(** One request, served to its end: the properties of the socket are those
    the invocation started with, or what [resolved] made of them. *)
Lemma props_serve data c :
  falsy data = false ->
  provider_enum (get_field data "db") = true ->
  let db := get_field data "db" in
  let tenant := get_field data "tenant" in
  let c1 := dispatched db tenant c in
  props (serve (Parsed data) c).1 = props c1
  \/ exists v, props (serve (Parsed data) c).1 = props (resolved db tenant v c1).1.
Proof.
  intros Hf He db tenant c1.
  set (P := fun r : conn * option jserror =>
              props r.1 = props c1
              \/ exists v, props r.1 = props (resolved db tenant v c1).1).
  change (P (serve (Parsed data) c)). unfold serve.
  rewrite on_data_dispatch by assumption. fold db tenant c1.
  set (model := get_field data "model"). set (method := get_field data "method").
  set (params := normalize_params (get_field data "params")).
  destruct (is_str db "Mongo").
  - unfold catch_send, try_catch, mongo_branch. unfold bind at 1.
    pose proof (call_mongo_reads db tenant model method params c1) as Hr.
    destruct (call_mongo db tenant model method params c1) as [c' [e|result]];
      simpl in Hr; subst c'.
    + left. reflexivity.
    + unfold bind, get, lift, ret.
      destruct (then_of (heap c1) result) as [e|[v|e]].
      * left. reflexivity.
      * right. exists v. simpl. destruct (resolved db tenant v c1) as [c2 [e|[]]]; reflexivity.
      * left. reflexivity.
  - unfold catch_send, try_catch, direct_branch. unfold bind at 1.
    pose proof (call_target_reads db tenant model method params c1) as Hr.
    destruct (call_target db tenant model method params c1) as [c' [e|promise]];
      simpl in Hr; subst c'.
    + left. reflexivity.
    + unfold bind at 1, get at 1. unfold bind at 1, lift at 1.
      destruct (thenable (heap c1) promise) as [e|[[v|e]|]].
      * left. reflexivity.
      * right. exists v. simpl. destruct (resolved db tenant v c1) as [c2 [e|[]]]; reflexivity.
      * left. reflexivity.
      * right. exists promise. unfold bind, ret.
        destruct (resolved db tenant promise c1) as [c2 [e|[]]]; reflexivity.
Qed.

(** A [data] or [dataSets] request changes no property of the socket. *)
Lemma props_serve_cached data c :
  falsy data = false ->
  is_cached (get_field data "db") = true ->
  props (serve (Parsed data) c).1 = props c.
Proof.
  intros Hf Hc.
  assert (provider_enum (get_field data "db") = true) as He.
  { unfold provider_enum, is_cached in *.
    destruct (is_str _ "MySql"), (is_str _ "Mongo"); simpl; auto. }
  destruct (props_serve data c Hf He) as [H|[v H]]; rewrite H; unfold dispatched; rewrite Hc.
  - reflexivity.
  - apply props_resolved_cached, Hc.
Qed.

(** ** The cache is overwritten, never merged *)

Lemma props_serve_direct (data : json) (c : conn) :
  let db := get_field data "db" in
  let tenant := get_field data "tenant" in
  falsy data = false ->
  is_str db "MySql" = true \/ is_str db "Mongo" = true ->
  exists (record : val) (s : slot),
    stored_at_most record ∅ ∅ s /\
    props (serve (Parsed data) c).1 = <[to_key tenant := s]> (props c).
Proof.
  intros db tenant Hf Hdb.
  pose proof (direct_not_cached db Hdb) as Hc.
  assert (provider_enum db = true) as He.
  { unfold provider_enum. destruct Hdb as [-> | ->]; simpl; auto.
    destruct (is_str db "MySql"); reflexivity. }
  assert (props (dispatched db tenant c) !! to_key tenant = Some (SCache ∅ ∅)) as Hslot.
  { unfold dispatched. rewrite Hc. simpl. apply lookup_insert_eq. }
  destruct (props_serve data c Hf He) as [H|[v H]]; fold db tenant in H; rewrite H.
  - exists VNull, (SCache ∅ ∅). split; [left; reflexivity|].
    unfold dispatched. rewrite Hc. reflexivity.
  - destruct (props_resolved_direct db tenant v _ ∅ ∅ Hc Hslot) as (s & Hs & ->).
    exists (or_null v), s. split; [exact Hs|].
    unfold dispatched. rewrite Hc. simpl. apply insert_insert_eq.
Qed.

Example calls_in_turn_overwrite :
  let c := School.after_find in
  let c' := (serve (request "MySql" "t1" "Student" "findAll" []) c).1 in
  cached c "t1" "data" "student" = Some (VRef School.student) /\
  cached c' "t1" "data" "student" = None /\
  cached c' "t1" "dataSets" "parent" = Some (VRef School.parents).
Proof. repeat split; vm_compute; reflexivity. Qed.

(** ** What a request can do to the socket's properties *)

Lemma enum_cases db :
  provider_enum db = true ->
  is_cached db = true \/ is_str db "MySql" = true \/ is_str db "Mongo" = true.
Proof.
  unfold provider_enum, is_cached.
  destruct (is_str db "MySql"), (is_str db "Mongo"), (is_str db "data"),
    (is_str db "dataSets"); simpl; intros; auto; discriminate.
Qed.

(** Any chunk, served to its end, leaves the properties as they are or sets
    one of them to a tenant cache. *)
Lemma props_serve_any chunk c :
  props (serve chunk c).1 = props c
  \/ exists t d ds, props (serve chunk c).1 = <[t := SCache d ds]> (props c).
Proof.
  destruct chunk as [err|data]; [left; reflexivity|].
  destruct (falsy data) eqn:Hf.
  { left. unfold serve. rewrite rejected_parsed by auto. reflexivity. }
  destruct (provider_enum (get_field data "db")) eqn:He.
  2:{ left. unfold serve. rewrite rejected_parsed by auto. reflexivity. }
  destruct (enum_cases _ He) as [Hc|Hd].
  - left. apply props_serve_cached; assumption.
  - right. destruct (props_serve_direct data c Hf Hd) as (r & s & Hs & ->).
    exists (to_key (get_field data "tenant")).
    destruct Hs as [->|[[n ->]|[n ->]]]; eauto.
Qed.

Lemma cache_stays chunk c k : is_cache_at c k -> is_cache_at (serve chunk c).1 k.
Proof.
  intros (d & ds & Hk). unfold is_cache_at.
  destruct (props_serve_any chunk c) as [->|(t & d' & ds' & ->)]; [eauto|].
  destruct (decide (t = k)) as [->|Hne].
  - rewrite lookup_insert_eq. eauto.
  - rewrite lookup_insert_ne by assumption. eauto.
Qed.

Lemma cache_stays_all chunks : forall c k,
  is_cache_at c k -> is_cache_at (serve_all chunks c).1 k.
Proof.
  induction chunks as [|chunk rest IH]; intros c k Hk; simpl; [exact Hk|].
  pose proof (cache_stays chunk c k Hk) as H1.
  destruct (serve chunk c) as [c1 u]. simpl in H1.
  specialize (IH c1 k H1). destruct (serve_all rest c1) as [c2 us]. exact IH.
Qed.

Lemma tenants_are_caches_step chunk c :
  tenants_are_caches c -> tenants_are_caches (serve chunk c).1.
Proof.
  intros Hwf k H1 H2. unfold is_cache_at.
  destruct (props_serve_any chunk c) as [->|(t & d' & ds' & ->)]; [apply Hwf; assumption|].
  destruct (decide (t = k)) as [->|Hne].
  - right. rewrite lookup_insert_eq. eauto.
  - rewrite lookup_insert_ne by assumption. apply Hwf; assumption.
Qed.

Lemma tenants_are_caches_all chunks : forall c,
  tenants_are_caches c -> tenants_are_caches (serve_all chunks c).1.
Proof.
  induction chunks as [|chunk rest IH]; intros c Hwf; simpl; [exact Hwf|].
  pose proof (tenants_are_caches_step chunk c Hwf) as H1.
  destruct (serve chunk c) as [c1 u]. simpl in H1.
  specialize (IH c1 H1). destruct (serve_all rest c1) as [c2 us]. exact IH.
Qed.

Lemma tenants_are_caches_init this h : tenants_are_caches (on_connection this h).
Proof.
  intros k H1 H2. left. unfold on_connection. simpl.
  rewrite !lookup_insert_ne by congruence. apply lookup_empty.
Qed.

(** ** Cache misses *)

Lemma is_cached_cases db :
  is_cached db = true -> db = Some (JStr "data") \/ db = Some (JStr "dataSets").
Proof.
  unfold is_cached. destruct db as [[| | |s| |]|]; simpl; try discriminate.
  repeat case_decide; subst; simpl; auto; discriminate.
Qed.


(** ** Tenants called "MySql" or "Mongo" *)

Lemma stored_at_most_cache record d ds s :
  stored_at_most record d ds s -> exists d' ds', s = SCache d' ds'.
Proof. intros [->|[[n ->]|[n ->]]]; eauto. Qed.

Lemma is_str_eq db s : is_str db s = true -> db = Some (JStr s).
Proof.
  destruct db as [[| | |t| |]|]; simpl; try discriminate.
  case_decide; [subst; reflexivity | discriminate].
Qed.

Lemma is_cache_at_dispatched db tenant c k :
  is_cache_at c k -> is_cache_at (dispatched db tenant c) k.
Proof.
  intros (d & ds & Hk). unfold dispatched, is_cache_at.
  destruct (is_cached db); [eauto|]. simpl.
  destruct (decide (to_key tenant = k)) as [->|Hne].
  - rewrite lookup_insert_eq. eauto.
  - rewrite lookup_insert_ne by assumption. eauto.
Qed.

(** A request for a provider whose property on the socket is a tenant cache
    cannot resolve a model of the provider: the invocation throws a
    [TypeError], unless the lookup lands on an entry of that cache. *)
Lemma invocation_on_cache db tenant model method params c P :
  P = "MySql" \/ P = "Mongo" ->
  is_str db P = true ->
  is_cache_at c P ->
  (exists e, err_name e = "TypeError" /\
             invocation db tenant model method params c = (c, inl e))
  \/ (P = "MySql" /\
      exists record, cached c "MySql" (to_key tenant) (to_key model) = Some record).
Proof.
  intros HP Hdb (d & ds & Hslot). apply is_str_eq in Hdb. subst db.
  unfold invocation. destruct HP as [-> | ->].
  - change (is_str (Some (JStr "MySql")) "Mongo") with false. cbv iota.
    unfold call_target.
    change (is_cached (Some (JStr "MySql"))) with false. cbv iota.
    unfold socket_get2, bind, get, throw, cached.
    change (to_key (Some (JStr "MySql"))) with "MySql". rewrite Hslot.
    destruct (slot_get (SCache d ds) (to_key tenant)) as [[m|connection]|] eqn:Hg.
    + destruct (m !! to_key model) as [record|] eqn:Hm.
      * right. split; [reflexivity|]. exists record. reflexivity.
      * left. unfold ret, returned, invoke, l2_get. rewrite Hm. simpl.
        eexists. split; [|reflexivity]. reflexivity.
    + unfold slot_get in Hg. repeat case_decide; discriminate.
    + left. eexists. split; [|reflexivity]. reflexivity.
  - left. change (is_str (Some (JStr "Mongo")) "Mongo") with true. cbv iota.
    unfold call_mongo, socket_get2, bind, get, throw.
    change (to_key (Some (JStr "Mongo"))) with "Mongo". rewrite Hslot.
    unfold slot_get. repeat case_decide; (eexists; split; [|reflexivity]; reflexivity).
Qed.

(** C9.  A request for [MySql] or [Mongo] whose tenant, as a property key,
    is "MySql" or "Mongo" replaces the socket's reference to that provider
    with the tenant cache created for the request.  The property stays a
    tenant cache whatever is served afterwards, so no model of that provider
    can be resolved on this connection any more: every later request for
    the provider is answered with the [TypeError] of the failed lookup, or
    (for [MySql] with the tenant "data" or "dataSets") its lookup lands on a
    record held in the cache object that took the provider's place. *)
Theorem provider_reference_overwritten (data : json) (c : conn) (P : string) :
  let db := get_field data "db" in
  let tenant := get_field data "tenant" in
  let c1 := (serve (Parsed data) c).1 in
  falsy data = false ->
  is_str db "MySql" = true \/ is_str db "Mongo" = true ->
  to_key tenant = P ->
  P = "MySql" \/ P = "Mongo" ->
  (exists record s, stored_at_most record ∅ ∅ s /\ props c1 !! P = Some s) /\
  (forall later, is_cache_at (serve_all later c1).1 P) /\
  (forall later data',
      let c2 := (serve_all later c1).1 in
      let db' := get_field data' "db" in
      let tenant' := get_field data' "tenant" in
      let model' := get_field data' "model" in
      falsy data' = false ->
      is_str db' P = true ->
      (exists e, err_name e = "TypeError" /\
                 serve (Parsed data') c2
                 = (write (ErrorFrame (message e)) (dispatched db' tenant' c2), None))
      \/ (P = "MySql" /\
          exists record,
            cached (dispatched db' tenant' c2) "MySql" (to_key tenant') (to_key model')
            = Some record)).
Proof.
  intros db tenant c1 Hf Hdb Hkey HP.
  destruct (props_serve_direct data c Hf Hdb) as (record & s & Hs & Hprops).
  fold db tenant in Hprops. rewrite Hkey in Hprops.
  assert (props c1 !! P = Some s) as Hslot
      by (unfold c1; rewrite Hprops; apply lookup_insert_eq).
  assert (is_cache_at c1 P) as Hcache.
  { destruct (stored_at_most_cache _ _ _ _ Hs) as (d' & ds' & ->). exists d', ds'. exact Hslot. }
  split; [eauto|]. split.
  - intros later. apply cache_stays_all, Hcache.
  - intros later data' c2 db' tenant' model' Hf' Hdb'.
    pose proof (cache_stays_all later c1 P Hcache) as Hc2. fold c2 in Hc2.
    pose proof (is_cache_at_dispatched db' tenant' c2 P Hc2) as Hc3.
    destruct (invocation_on_cache db' tenant' model'
                (get_field data' "method") (normalize_params (get_field data' "params"))
                _ P HP Hdb' Hc3) as [(e & Hname & Hinv)|Hhit]; [left|right; exact Hhit].
    exists e. split; [exact Hname|].
    apply (serve_invocation_throws data' c2 (dispatched db' tenant' c2) e Hf'); [|exact Hinv].
    fold db'. unfold provider_enum.
    destruct HP as [-> | ->]; rewrite Hdb'; simpl; auto.
    destruct (is_str db' "MySql"); reflexivity.
Qed.

Lemma provider_reference_overwritten_witness :
  (exists e,
      err_name e = "TypeError" /\
      serve (request "MySql" "t1" "Student" "findById" [JNum 5]) School.clobbered
      = (write (ErrorFrame (message e))
               (dispatched (Some (JStr "MySql")) (Some (JStr "t1")) School.clobbered), None))
  \/ ("MySql" = "MySql" /\
      exists record,
        cached (dispatched (Some (JStr "MySql")) (Some (JStr "t1")) School.clobbered)
               "MySql" "t1" "Student" = Some record).
Proof.
  destruct (provider_reference_overwritten
              (JObj [("db", JStr "MySql"); ("tenant", JStr "MySql"); ("model", JStr "Student");
                     ("method", JStr "findById"); ("params", JArr [JNum 5])])
              School.fresh "MySql") as (_ & _ & H).
  - reflexivity.
  - left. reflexivity.
  - reflexivity.
  - left. reflexivity.
  - apply (H [] (JObj [("db", JStr "MySql"); ("tenant", JStr "t1"); ("model", JStr "Student");
                       ("method", JStr "findById"); ("params", JArr [JNum 5])])).
    + reflexivity.
    + reflexivity.
Defined.

Example readme_call_after_clobbering :
  written (serve (request "MySql" "t1" "Student" "findById" [JNum 5]) School.fresh).1
  = [Payload (VRef School.student_plain)] /\
  written (serve (request "MySql" "t1" "Student" "findById" [JNum 5]) School.clobbered).1
  = [ErrorFrame "Cannot read property 'Student' of undefined";
     ErrorFrame "Cannot read property 'Student' of undefined"].
Proof. split; vm_compute; reflexivity. Qed.

(** ** What does hold of a call on a cached record *)

Lemma cached_not_direct db :
  is_cached db = true -> is_str db "MySql" = false /\ is_str db "Mongo" = false.
Proof. intros H. destruct (is_cached_cases db H) as [-> | ->]; split; reflexivity. Qed.

Lemma getPlainObject_cached db h record :
  is_cached db = true -> _getPlainObject h record db = inr record.
Proof.
  intros H. destruct (cached_not_direct db H) as [H1 H2].
  unfold _getPlainObject. rewrite H1, H2. reflexivity.
Qed.

(** For [data] and [dataSets], [resolved] sends the value as it is and
    changes nothing. *)
Lemma resolved_cached db tenant v c :
  is_cached db = true ->
  resolved db tenant v c = (write (Payload (or_null v)) c, inr tt).
Proof.
  intros Hc. unfold resolved. unfold bind at 1, get at 1. rewrite Hc. cbn [negb].
  unfold bind at 1, ret at 1.
  destruct (as_array (heap c) (or_null v)) as [elems|] eqn:Harr.
  - destruct (or_null v) as [| | | | |l] eqn:Hv; try discriminate.
    unfold as_array, deref in Harr.
    destruct (heap c !! l) as [[k ms]|] eqn:Hl; [|discriminate].
    simpl in Harr. destruct k; try discriminate. inversion Harr; subst.
    unfold bind at 1. unfold bind at 1.
    pose proof (normalize_each_ok db l ms elems elems [] c Hl) as HN.
    simpl in HN. rewrite HN.
    + rewrite insert_id by exact Hl. unfold set_heap. rewrite conn_eta.
      unfold ret. reflexivity.
    + clear - Hc. induction elems as [|x xs IH]; constructor;
        [apply getPlainObject_cached, Hc | exact IH].
  - unfold bind, get, lift. simpl.
    assert (_getPlainObject (heap c) (or_null v) db = inr (or_null v)) as E
        by apply getPlainObject_cached, Hc.
    destruct (or_null v) eqn:Hv; rewrite E; try reflexivity.
    destruct v; discriminate.
Qed.

Lemma call_target_cached db tenant model method params c record f :
  is_cached db = true ->
  cached c (to_key tenant) (to_key db) (to_key model) = Some record ->
  member (heap c) record (to_key method) = inr (Some f) ->
  call_target db tenant model method params c
  = (c, match f params with Throws e => inl e | Returns v => inr v end).
Proof.
  intros Hc Hcached Hm. unfold call_target. rewrite Hc.
  unfold socket_get2, bind, get, throw, ret. unfold cached in Hcached.
  destruct (props c !! to_key tenant) as [s|]; [|discriminate].
  destruct (slot_get s (to_key db)) as [[m|conn]|]; try discriminate.
  unfold l2_get, invoke. rewrite Hcached. simpl. rewrite Hm.
  destruct (f params); reflexivity.
Qed.

(** The part of C1 that holds.  A [data] or [dataSets] request that finds
    its entry in the cache and names a method of it, where the method
    returns a value other than [null] or a promise that is fulfilled, is
    answered with that value ([null] for [undefined]); nothing else changes
    on the connection. *)
Lemma cached_call_answers (data : json) (c : conn) (record v w : val) (f : method) :
  let db := get_field data "db" in
  let tenant := get_field data "tenant" in
  let model := get_field data "model" in
  let method := get_field data "method" in
  let params := normalize_params (get_field data "params") in
  falsy data = false ->
  is_cached db = true ->
  cached c (to_key tenant) (to_key db) (to_key model) = Some record ->
  member (heap c) record (to_key method) = inr (Some f) ->
  f params = Returns v ->
  answer (heap c) v = Some w ->
  serve (Parsed data) c = (write (Payload (or_null w)) c, None).
Proof.
  intros db tenant model method params Hf Hc Hcached Hm Hret Hans.
  assert (provider_enum db = true) as He.
  { unfold provider_enum, is_cached in *.
    destruct (is_str db "MySql"), (is_str db "Mongo"); simpl; auto. }
  unfold serve. rewrite on_data_dispatch by assumption.
  fold db tenant model method params.
  destruct (cached_not_direct db Hc) as [_ ->].
  unfold dispatched. rewrite Hc.
  pose proof (call_target_cached db tenant model method params c record f Hc Hcached Hm) as Hcall.
  rewrite Hret in Hcall.
  unfold catch_send, try_catch, direct_branch. unfold bind at 1. rewrite Hcall.
  unfold bind at 1, get at 1. unfold bind at 1, lift at 1.
  unfold answer in Hans.
  destruct (thenable (heap c) v) as [e|[[u|e]|]]; try discriminate.
  - inversion Hans; subst. unfold ret. cbv beta iota. unfold on_settle.
    rewrite resolved_cached by assumption. reflexivity.
  - inversion Hans; subst. unfold bind, ret. rewrite resolved_cached by assumption.
    reflexivity.
Qed.

(** * Further properties of the data handler *)

(** ** The shape of a served request *)


Lemma dispatched_heap db tenant c : heap (dispatched db tenant c) = heap c.
Proof. unfold dispatched. destruct (is_cached db); reflexivity. Qed.

(** A request with a provider of the enum ends in one of four ways: the
    invocation (or the test for a promise) threw and the error was sent; the
    promise rejected; the promise was fulfilled and [resolved] ran as its
    callback; the result was no promise and [resolved] ran in the handler. *)
Lemma serve_cases data c :
  falsy data = false ->
  provider_enum (get_field data "db") = true ->
  let db := get_field data "db" in
  let tenant := get_field data "tenant" in
  let c1 := dispatched db tenant c in
  (exists e, serve (Parsed data) c = (write (ErrorFrame (message e)) c1, None))
  \/ (exists e, serve (Parsed data) c = (c1, Some e))
  \/ (exists v, serve (Parsed data) c = settled_async (resolved db tenant v c1))
  \/ (exists v, serve (Parsed data) c = settled_sync (resolved db tenant v c1)).
Proof.
  intros Hf He db tenant c1.
  set (P := fun r : conn * option jserror =>
              (exists e, r = (write (ErrorFrame (message e)) c1, None))
              \/ (exists e, r = (c1, Some e))
              \/ (exists v, r = settled_async (resolved db tenant v c1))
              \/ (exists v, r = settled_sync (resolved db tenant v c1))).
  change (P (serve (Parsed data) c)). unfold serve.
  rewrite on_data_dispatch by assumption. fold db tenant c1.
  set (model := get_field data "model"). set (method := get_field data "method").
  set (params := normalize_params (get_field data "params")).
  destruct (is_str db "Mongo").
  - unfold catch_send, try_catch, mongo_branch. unfold bind at 1.
    pose proof (call_mongo_reads db tenant model method params c1) as Hr.
    destruct (call_mongo db tenant model method params c1) as [c' [e|result]];
      simpl in Hr; subst c'.
    + left. exists e. reflexivity.
    + unfold bind, get, lift, ret.
      destruct (then_of (heap c1) result) as [e|[v|e]].
      * left. exists e. reflexivity.
      * right. right. left. exists v. simpl.
        destruct (resolved db tenant v c1) as [c2 [e|[]]]; reflexivity.
      * right. left. exists e. reflexivity.
  - unfold catch_send, try_catch, direct_branch. unfold bind at 1.
    pose proof (call_target_reads db tenant model method params c1) as Hr.
    destruct (call_target db tenant model method params c1) as [c' [e|promise]];
      simpl in Hr; subst c'.
    + left. exists e. reflexivity.
    + unfold bind at 1, get at 1. unfold bind at 1, lift at 1.
      destruct (thenable (heap c1) promise) as [e|[[v|e]|]].
      * left. exists e. reflexivity.
      * right. right. left. exists v. simpl.
        destruct (resolved db tenant v c1) as [c2 [e|[]]]; reflexivity.
      * right. left. exists e. reflexivity.
      * right. right. right. exists promise. unfold bind, ret.
        destruct (resolved db tenant promise c1) as [c2 [e|[]]]; reflexivity.
Qed.

(** ** Components a computation leaves alone *)

Section Keeps.
Context {B : Type} (proj : conn -> B).

Lemma keeps_ret' {A} (a : A) : keeps proj (ret a).
Proof. intros c; reflexivity. Qed.
Lemma keeps_throw' {A} e : keeps proj (@throw A e).
Proof. intros c; reflexivity. Qed.
Lemma keeps_lift' {A} (r : jserror + A) : keeps proj (lift r).
Proof. intros c; reflexivity. Qed.
Lemma keeps_get' : keeps proj get.
Proof. intros c; reflexivity. Qed.

Lemma keeps_bind' {A A'} (m : M A) (k : A -> M A') :
  keeps proj m -> (forall a, keeps proj (k a)) -> keeps proj (bind m k).
Proof.
  intros Hm Hk c. unfold bind. specialize (Hm c).
  destruct (m c) as [c' [e|a]]; simpl in *; [exact Hm|].
  rewrite Hk. exact Hm.
Qed.

End Keeps.


Lemma store_keeps_heap tenant which x record :
  keeps heap (store tenant which (lift x) record).
Proof.
  intros c. unfold store, bind at 1, get at 1.
  destruct (props c !! tenant) as [[p|p|d ds]|]; try reflexivity;
    unfold bind, lift; destruct x as [e|name]; try reflexivity.
  - destruct (p !! which); reflexivity.
  - destruct (p !! which); reflexivity.
  - destruct (decide (which = "data")); reflexivity.
Qed.


(** ** One response for a request *)





(** ** What a request can do to the heap *)

Lemma same_shape_obj_refl o : same_shape_obj o o.
Proof. split; [reflexivity|]. destruct (obj_kind o); reflexivity. Qed.

Lemma same_shape_obj_trans o1 o2 o3 :
  same_shape_obj o1 o2 -> same_shape_obj o2 o3 -> same_shape_obj o1 o3.
Proof.
  intros [Hm1 Hk1] [Hm2 Hk2]. split; [congruence|].
  destruct (obj_kind o1), (obj_kind o2), (obj_kind o3); congruence.
Qed.

Lemma same_shape_refl h : same_shape h h.
Proof.
  intros l. destruct (h !! l); constructor. apply same_shape_obj_refl.
Qed.

Lemma same_shape_trans h1 h2 h3 : same_shape h1 h2 -> same_shape h2 h3 -> same_shape h1 h3.
Proof.
  intros H12 H23 l. specialize (H12 l). specialize (H23 l).
  destruct H12 as [o1 o2 Ho|]; inversion H23; subst; constructor.
  eapply same_shape_obj_trans; eassumption.
Qed.

Lemma same_shape_set_elem h l index v : same_shape h (set_elem h l index v).
Proof.
  unfold set_elem. destruct (h !! l) as [[[ |elems| | | ] ms]|] eqn:Hl;
    try apply same_shape_refl.
  intros l'. destruct (decide (l = l')) as [<-|Hne].
  - rewrite lookup_insert_eq, Hl. constructor. split; [reflexivity|].
    simpl. rewrite length_insert. reflexivity.
  - rewrite lookup_insert_ne by assumption. destruct (h !! l'); constructor.
    apply same_shape_obj_refl.
Qed.

Section HeapMoves.
Variable R : heap_t -> heap_t -> Prop.
Hypothesis R_refl : forall h, R h h.
Hypothesis R_trans : forall h1 h2 h3, R h1 h2 -> R h2 h3 -> R h1 h3.

Lemma moves_keeps {A} (m : M A) : keeps heap m -> heap_moves R m.
Proof. intros Hm c. rewrite Hm. apply R_refl. Qed.

Lemma moves_bind {A A'} (m : M A) (k : A -> M A') :
  heap_moves R m -> (forall a, heap_moves R (k a)) -> heap_moves R (bind m k).
Proof.
  intros Hm Hk c. unfold bind. specialize (Hm c).
  destruct (m c) as [c' [e|a]]; simpl in *; [exact Hm|].
  eapply R_trans; [exact Hm|apply Hk].
Qed.

Lemma moves_try_catch {A} (m : M A) (handler : jserror -> M A) :
  heap_moves R m -> (forall e, heap_moves R (handler e)) ->
  heap_moves R (try_catch m handler).
Proof.
  intros Hm Hh c. unfold try_catch. specialize (Hm c).
  destruct (m c) as [c' [e|a]]; simpl in *; [|exact Hm].
  eapply R_trans; [exact Hm|apply Hh].
Qed.
End HeapMoves.

Lemma normalize_each_shape db l todo :
  forall index, heap_moves same_shape (normalize_each db l index todo).
Proof.
  induction todo as [|e rest IH]; intros index; simpl.
  - apply moves_keeps; [apply same_shape_refl|apply keeps_ret'].
  - intros c. unfold bind at 1, get at 1. unfold bind at 1, lift at 1.
    destruct (_getPlainObject (heap c) e db) as [err|plain]; [apply same_shape_refl|].
    unfold bind at 1, modify at 1.
    eapply same_shape_trans; [|apply IH]. simpl. apply same_shape_set_elem.
Qed.

Lemma resolved_shape db tenant v : heap_moves same_shape (resolved db tenant v).
Proof.
  unfold resolved. intros c. unfold bind at 1, get at 1.
  apply (moves_bind same_shape same_shape_trans).
  - apply moves_keeps; [apply same_shape_refl|].
    destruct (negb (is_cached db)); [|apply keeps_ret'].
    destruct (as_array (heap c) (or_null v)); apply store_keeps_heap.
  - intros _. apply (moves_bind same_shape same_shape_trans).
    + destruct (as_array (heap c) (or_null v)) as [elems|];
        [destruct (or_null v)|];
        try solve [ apply moves_keeps; [apply same_shape_refl|];
                    repeat first [ apply keeps_bind' | apply keeps_get' | apply keeps_lift'
                                 | apply keeps_ret' | intros ? ] ].
      apply (moves_bind same_shape same_shape_trans); [apply normalize_each_shape|].
      intros _. apply moves_keeps; [apply same_shape_refl|apply keeps_ret'].
    + intros record. apply moves_keeps; [apply same_shape_refl|].
      intros c0. unfold try_catch, write_json, sendError, modify, throw.
      destruct record; reflexivity.
Qed.

Lemma serve_shape chunk c : same_shape (heap c) (heap (serve chunk c).1).
Proof.
  destruct chunk as [err|data]; [apply same_shape_refl|].
  destruct (falsy data) eqn:Hf.
  { unfold serve. rewrite rejected_parsed by auto. apply same_shape_refl. }
  destruct (provider_enum (get_field data "db")) eqn:He.
  2:{ unfold serve. rewrite rejected_parsed by auto. apply same_shape_refl. }
  pose proof (dispatched_heap (get_field data "db") (get_field data "tenant") c) as Hh.
  pose proof (fun v => resolved_shape (get_field data "db") (get_field data "tenant") v
                         (dispatched (get_field data "db") (get_field data "tenant") c)) as HR.
  rewrite Hh in HR.
  destruct (serve_cases data c Hf He) as [(e & ->)|[(e & ->)|[(v & ->)|(v & ->)]]];
    simpl; try (rewrite Hh; apply same_shape_refl);
    specialize (HR v); destruct (resolved _ _ v _) as [c2 [e|[]]]; exact HR.
Qed.

(** X2.  The handler's own writes to the objects it is handed (a method
    being a function of its parameters, they are the only writes): whatever
    is served on a connection, no object is added or removed, every object
    keeps its members, a record keeps its provenance and a promise its
    settlement; an array keeps its length, only its elements may have been
    replaced. *)
Theorem heap_keeps_its_shape (chunks : list inbound) (c : conn) :
  same_shape (heap c) (heap (serve_all chunks c).1).
Proof.
  revert c. induction chunks as [|chunk rest IH]; intros c; simpl.
  - apply same_shape_refl.
  - pose proof (serve_shape chunk c) as H1.
    destruct (serve chunk c) as [c1 u]. simpl in H1.
    specialize (IH c1). destruct (serve_all rest c1) as [c2 us]. simpl in *.
    eapply same_shape_trans; eassumption.
Qed.

(** ** Requests on cached records read only *)

(** ** Arrays that cannot be normalised *)

Lemma normalize_each_stops db l ms e bad post :
  forall (pre plains done : list val) (c : conn),
    heap c !! l = Some (Object (Array (done ++ pre ++ bad :: post)%list) ms) ->
    Forall2 (fun x p => _getPlainObject (heap c) x db = inr p) pre plains ->
    _getPlainObject (heap c) bad db = inl e ->
    normalize_each db l (length done) (pre ++ bad :: post)%list c
    = (set_heap (<[l := Object (Array (done ++ plains ++ bad :: post)%list) ms]> (heap c)) c,
       inl e).
Proof.
  induction pre as [|x rest IH]; intros plains done c Hl Hall Hbad.
  - inversion Hall; subst. simpl. unfold bind, get, lift. rewrite Hbad.
    unfold set_heap. rewrite insert_id by exact Hl. rewrite conn_eta. reflexivity.
  - inversion Hall as [|? p ? ps Hp Hrest]; subst.
    rewrite <- app_comm_cons in Hl. simpl.
    unfold bind at 1, get at 1. unfold bind at 1, lift at 1. rewrite Hp.
    unfold bind at 1, modify at 1.
    rewrite (set_elem_array _ _ _ _ _ _ Hl).
    assert (<[length done := p]> (done ++ x :: rest ++ bad :: post)%list
            = ((done ++ [p]) ++ rest ++ bad :: post)%list) as ->.
    { rewrite insert_app_r_alt by lia. rewrite Nat.sub_diag. simpl.
      rewrite <- app_assoc. reflexivity. }
    specialize (IH ps (done ++ [p])%list
                   (set_heap (<[l := Object (Array ((done ++ [p]) ++ rest ++ bad :: post)%list)
                                            ms]> (heap c)) c)).
    rewrite length_app in IH. simpl in IH. rewrite Nat.add_1_r in IH.
    rewrite IH.
    + unfold set_heap. simpl. rewrite insert_insert_eq, <- app_assoc. reflexivity.
    + simpl. apply lookup_insert_eq.
    + simpl. eapply Forall2_impl; [exact Hrest|].
      intros y q Hyq. cbv beta. rewrite (getPlainObject_insert_array _ _ _ _ _ _ _ Hl).
      exact Hyq.
    + simpl. rewrite (getPlainObject_insert_array _ _ _ _ _ _ _ Hl). exact Hbad.
Qed.

(** X4.  [resolved] for [MySql] or [Mongo] on an array one of whose
    elements cannot be made plain (a [null] among the records, a [get] that
    throws): it throws that error and writes nothing itself, but by then the
    array is in the cache, and the elements before the failing one have been
    replaced by their plain forms while the failing one and those after it
    are still what they were. *)
Theorem normalisation_stops_midway
        (db tenant : jsvalue) (c : conn) (d ds : gmap string val) (l : loc)
        (pre plains post : list val) (bad : val) (ms : gmap string method)
        (name : string) (e : jserror) :
  is_str db "MySql" = true \/ is_str db "Mongo" = true ->
  props c !! to_key tenant = Some (SCache d ds) ->
  heap c !! l = Some (Object (Array (pre ++ bad :: post)%list) ms) ->
  _getModelName (heap c) (default VUndef ((pre ++ bad :: post)%list !! 0%nat)) = inr name ->
  Forall2 (fun x p => _getPlainObject (heap c) x db = inr p) pre plains ->
  _getPlainObject (heap c) bad db = inl e ->
  resolved db tenant (VRef l) c
  = (Conn (<[to_key tenant := SCache d (<[name := VRef l]> ds)]> (props c))
          (<[l := Object (Array (plains ++ bad :: post)%list) ms]> (heap c))
          (written c), inl e).
Proof.
  intros Hdb Hslot Hl Hname Hall Hbad. pose proof (direct_not_cached db Hdb) as Hc.
  unfold resolved. cbn [or_null]. unfold bind at 1. unfold get at 1.
  assert (as_array (heap c) (VRef l) = Some (pre ++ bad :: post)%list) as ->.
  { unfold as_array, deref. rewrite Hl. reflexivity. }
  rewrite Hc. simpl negb. cbv iota.
  unfold bind at 1. unfold store, bind at 1, get at 1. rewrite Hslot, Hname.
  unfold bind at 1, lift. rewrite decide_False by discriminate.
  unfold modify at 1.
  unfold bind at 1 2.
  pose proof (normalize_each_stops db l ms e bad post pre plains []
                (set_props (<[to_key tenant:=SCache d (<[name:=VRef l]> ds)]>) c)) as HN.
  simpl in HN. rewrite HN by assumption.
  reflexivity.
Qed.

Lemma normalisation_stops_midway_witness :
  let c := init_cache "t1" Roster.fresh in
  resolved (Some (JStr "MySql")) (Some (JStr "t1")) (VRef Roster.holed) c
  = (Conn (<["t1" := SCache ∅ (<["course" := VRef Roster.holed]> ∅)]> (props c))
          (<[Roster.holed :=
               Object (Array [VRef Roster.course_plain; VNull; VRef Roster.course]) ∅]> (heap c))
          (written c), inl (cannot_read "get" "null")).
Proof.
  intros c.
  apply (normalisation_stops_midway
           (Some (JStr "MySql")) (Some (JStr "t1")) c ∅ ∅ Roster.holed
           [VRef Roster.course] [VRef Roster.course_plain] [VRef Roster.course] VNull ∅).
  - left. reflexivity.
  - vm_compute. reflexivity.
  - vm_compute. reflexivity.
  - vm_compute. reflexivity.
  - repeat constructor; vm_compute; reflexivity.
  - vm_compute. reflexivity.
Defined.

(** X5.  [resolved] on an empty array.  For [MySql] or [Mongo] the name is
    derived from [record[0]], which is [undefined]: it throws the
    [TypeError] of reading [undefined.Model], stores nothing and writes
    nothing.  For [data] or [dataSets] it sends the empty array. *)
Theorem empty_array_is_an_error
        (db tenant : jsvalue) (c : conn) (l : loc) (ms : gmap string method) :
  heap c !! l = Some (Object (Array []) ms) ->
  (is_str db "MySql" = true \/ is_str db "Mongo" = true ->
   forall d ds, props c !! to_key tenant = Some (SCache d ds) ->
   resolved db tenant (VRef l) c = (c, inl (cannot_read "Model" "undefined"))) /\
  (is_cached db = true ->
   resolved db tenant (VRef l) c = (write (Payload (VRef l)) c, inr tt)).
Proof.
  intros Hl. split.
  - intros Hdb d ds Hslot. pose proof (direct_not_cached db Hdb) as Hc.
    unfold resolved. cbn [or_null]. unfold bind at 1. unfold get at 1.
    assert (as_array (heap c) (VRef l) = Some []) as ->.
    { unfold as_array, deref. rewrite Hl. reflexivity. }
    rewrite Hc. simpl negb. cbv iota.
    unfold bind at 1. unfold store, bind at 1, get at 1. rewrite Hslot.
    reflexivity.
  - intros Hc. apply (resolved_cached db tenant (VRef l) c Hc).
Qed.

Lemma empty_array_is_an_error_witness :
  let c := init_cache "t1" Roster.fresh in
  resolved (Some (JStr "MySql")) (Some (JStr "t1")) (VRef Roster.none) c
  = (c, inl (cannot_read "Model" "undefined")).
Proof.
  intros c.
  apply (proj1 (empty_array_is_an_error (Some (JStr "MySql")) (Some (JStr "t1")) c
                  Roster.none ∅ ltac:(vm_compute; reflexivity))
               (or_introl eq_refl) ∅ ∅).
  vm_compute. reflexivity.
Defined.

Example empty_result_on_the_wire :
  written (serve (request "MySql" "t1" "Course" "findAll" []) Roster.fresh).1
  = [ErrorFrame "Cannot read property 'Model' of undefined"] /\
  serve (request "MySql" "t1" "Course" "findLater" []) Roster.fresh
  = (init_cache "t1" Roster.fresh, Some (cannot_read "Model" "undefined")).
Proof. split; vm_compute; reflexivity. Qed.

(** ** The provider references *)

Lemma serve_lookup_other chunk c k :
  cache_key chunk <> Some k -> props (serve chunk c).1 !! k = props c !! k.
Proof.
  intros Hk. destruct chunk as [err|data]; [reflexivity|]. simpl in Hk.
  destruct (falsy data) eqn:Hf.
  { unfold serve. rewrite rejected_parsed by auto. reflexivity. }
  destruct (provider_enum (get_field data "db")) eqn:He.
  2:{ unfold serve. rewrite rejected_parsed by auto. reflexivity. }
  destruct (enum_cases _ He) as [Hc|Hd].
  - rewrite props_serve_cached by assumption. reflexivity.
  - assert (is_str (get_field data "db") "MySql" || is_str (get_field data "db") "Mongo" = true)
      as Hor by (destruct Hd as [-> | ->]; [reflexivity|apply orb_true_r]).
    rewrite Hor in Hk.
    destruct (props_serve_direct data c Hf Hd) as (r & s & _ & ->).
    apply lookup_insert_ne. congruence.
Qed.

(** X6.  As long as no request for [MySql] or [Mongo] names a tenant whose
    property key is "MySql" or "Mongo", the socket's two provider references
    are the server's providers, whatever else is served: errors, cache
    misses, rejected promises and malformed chunks included. *)
Theorem providers_stay_in_place (this : server) (h : heap_t) (chunks : list inbound) :
  Forall (fun chunk => cache_key chunk <> Some "MySql" /\ cache_key chunk <> Some "Mongo")
         chunks ->
  let c := (serve_all chunks (on_connection this h)).1 in
  props c !! "MySql" = Some (SSql (MySql this)) /\
  props c !! "Mongo" = Some (SMongo (Mongo this)).
Proof.
  intros Hall.
  assert (forall c0,
             props (serve_all chunks c0).1 !! "MySql" = props c0 !! "MySql" /\
             props (serve_all chunks c0).1 !! "Mongo" = props c0 !! "Mongo") as H.
  { induction Hall as [|chunk rest [H1 H2] _ IH]; intros c0; simpl; [split; reflexivity|].
    pose proof (serve_lookup_other chunk c0 "MySql" H1) as E1.
    pose proof (serve_lookup_other chunk c0 "Mongo" H2) as E2.
    destruct (serve chunk c0) as [c1 u]. simpl in E1, E2.
    specialize (IH c1). destruct (serve_all rest c1) as [c2 us]. simpl in *.
    destruct IH as [I1 I2]. split; congruence. }
  intros c. subst c. destruct (H (on_connection this h)) as [-> ->].
  split; reflexivity.
Qed.

Lemma providers_stay_in_place_witness :
  let c := (serve_all [request "MySql" "t1" "Student" "findById" [JNum 5];
                       request "data" "t1" "student" "previous" [];
                       Unparsable (SyntaxError "Unexpected end of JSON input");
                       request "MySql" "t1" "Student" "destroyAll" []]
                      (on_connection School.this School.world)).1 in
  props c !! "MySql" = Some (SSql (MySql School.this)) /\
  props c !! "Mongo" = Some (SMongo (Mongo School.this)).
Proof.
  apply (providers_stay_in_place School.this School.world).
  repeat constructor; vm_compute; discriminate.
Defined.

(** ** Cache keys *)

Lemma lower_ascii_idem a : lower_ascii (lower_ascii a) = lower_ascii a.
Proof. destruct a as [[] [] [] [] [] [] [] []]; reflexivity. Qed.

(** X7.  Whenever [_getModelName] gives a name, its first character is
    not an upper-case ASCII letter (and the name is not empty): a cached
    record can only be addressed by a name that starts that way. *)
Theorem derived_name_starts_lower (h : heap_t) (record : val) (name : string) :
  _getModelName h record = inr name ->
  exists a rest, name = String a rest /\ lower_ascii a = a.
Proof.
  assert (forall n, lower_first n = inr name ->
                    exists a rest, name = String a rest /\ lower_ascii a = a) as HL.
  { intros [|a rest]; simpl; [discriminate|]. intros H. inversion H; subst.
    eexists _, _. split; [reflexivity|apply lower_ascii_idem]. }
  assert (@inr jserror string "raw" = inr name ->
          exists a rest, name = String a rest /\ lower_ascii a = a) as HR.
  { intros H. inversion H; subst. eexists _, _. split; reflexivity. }
  unfold _getModelName. destruct record as [| | | | |l]; try discriminate; try exact HR.
  destruct (obj_kind (deref h l)); first [exact HR | apply HL].
Qed.

Lemma derived_name_starts_lower_witness :
  exists a rest, "student" = String a rest /\ lower_ascii a = a.
Proof.
  apply (derived_name_starts_lower School.world (VRef School.student) "student").
  vm_compute. reflexivity.
Defined.

(** ** Parameters *)

Lemma field_of_app_other fields name k v :
  k <> name -> field_of (fields ++ [(k, v)])%list name = field_of fields name.
Proof.
  intros Hk. induction fields as [|[k' v'] rest IH]; simpl.
  - rewrite decide_False by assumption. reflexivity.
  - rewrite IH. reflexivity.
Qed.

Lemma field_of_app_last fields k v :
  field_of (fields ++ [(k, v)])%list k = Some v.
Proof.
  induction fields as [|[k' v'] rest IH]; simpl.
  - rewrite decide_True by reflexivity. reflexivity.
  - rewrite IH. reflexivity.
Qed.

(** X8.  A request whose [params] is a single value that is not an array
    is handled exactly as the request with that value wrapped in a
    one-element array: same responses, same connection afterwards. *)
Theorem lone_param_is_wrapped (fields : list (string * json)) (p : json) (c : conn) :
  (forall items, p <> JArr items) ->
  on_data (Parsed (JObj (fields ++ [("params", p)])%list)) c
  = on_data (Parsed (JObj (fields ++ [("params", JArr [p])])%list)) c.
Proof.
  intros Hp. unfold on_data, get_field. cbn [falsy].
  rewrite !field_of_app_last.
  rewrite !(field_of_app_other fields "db") by discriminate.
  rewrite !(field_of_app_other fields "tenant") by discriminate.
  rewrite !(field_of_app_other fields "model") by discriminate.
  rewrite !(field_of_app_other fields "method") by discriminate.
  assert (normalize_params (Some p) = normalize_params (Some (JArr [p]))) as ->.
  { destruct p; try reflexivity. exfalso. eapply Hp. reflexivity. }
  reflexivity.
Qed.

Lemma lone_param_is_wrapped_witness :
  on_data (Parsed (JObj [("db", JStr "MySql"); ("tenant", JStr "t1"); ("model", JStr "Student");
                         ("method", JStr "findById"); ("params", JNum 5)])) School.fresh
  = on_data (request "MySql" "t1" "Student" "findById" [JNum 5]) School.fresh.
Proof.
  apply (lone_param_is_wrapped
           [("db", JStr "MySql"); ("tenant", JStr "t1"); ("model", JStr "Student");
            ("method", JStr "findById")] (JNum 5) School.fresh).
  intros items. discriminate.
Defined.

(** ** Two calls in flight *)

Lemma resolved_single db tenant c d ds record plain name :
  is_str db "MySql" = true \/ is_str db "Mongo" = true ->
  props c !! to_key tenant = Some (SCache d ds) ->
  as_array (heap c) record = None ->
  record <> VUndef ->
  _getModelName (heap c) record = inr name ->
  _getPlainObject (heap c) record db = inr plain ->
  plain <> VUndef ->
  resolved db tenant record c
  = (Conn (<[to_key tenant := SCache (<[name := record]> d) ds]> (props c))
          (heap c) (written c ++ [Payload plain])%list, inr tt).
Proof.
  intros Hdb Hslot Harr Hundef Hname Hplain Hpl.
  pose proof (direct_not_cached db Hdb) as Hc. unfold resolved.
  assert (or_null record = record) as -> by (destruct record; simpl; congruence).
  unfold bind at 1. unfold get at 1. rewrite Harr, Hc. simpl negb. cbv iota.
  unfold bind at 1. unfold store, bind at 1, get at 1. rewrite Hslot, Hname.
  unfold bind at 1, lift. rewrite decide_True by reflexivity.
  unfold modify at 1. unfold bind at 1.
  unfold bind, get, set_props. simpl. rewrite Hplain.
  unfold try_catch, write_json, modify, write.
  destruct plain; try congruence; reflexivity.
Qed.



(** * The client object *)

Module ClientFacts.
Import ClientObject.

(** ** The constructor *)

(** X10.  The constructor never uses the value of [options.encoding]: when
    [options] is an object that has an [encoding], the encoding handed to
    the socket is [options.ecoding] ([undefined] when there is no such
    property).  With [null] for [options] the constructor throws. *)
Theorem encoding_option_is_not_used :
  (forall (fields : list (string * json)) (e : json),
      encoding_of (Some (JObj (fields ++ [("encoding", e)])%list))
      = inr (field_of fields "ecoding")) /\
  construct (Some JNull) = inl (cannot_read "encoding" "null").
Proof.
  split; [|reflexivity].
  intros fields e. unfold encoding_of, prop_of, get_field. cbn [typeof_object].
  rewrite field_of_app_last.
  rewrite (field_of_app_other fields "ecoding") by discriminate. reflexivity.
Qed.

(** ** [mergeOptions] and the server's validation *)

(** X11.  Whatever options a request method is given, if [mergeOptions]
    returns, the server finds in the message the provider the method
    stands for, the caller's own [tenant], [model] and [method], and an
    array for [params]: the caller's array, or the caller's single value
    wrapped, or [[null]] when there was none.  The message is never falsy,
    so with one of the four providers it passes the server's validation. *)
Theorem merged_request_is_what_the_server_reads (db : string) (opts : jsvalue) (wire : json) :
  mergeOptions db opts = inr wire ->
  exists j,
    opts = Some j /\
    falsy wire = false /\
    get_field wire "db" = Some (JStr db) /\
    get_field wire "tenant" = get_field j "tenant" /\
    get_field wire "model" = get_field j "model" /\
    get_field wire "method" = get_field j "method" /\
    normalize_params (get_field wire "params")
    = match get_field j "params" with
      | Some (JArr items) => map Some items
      | Some p => [Some p]
      | None => [Some JNull]
      end.
Proof.
  unfold mergeOptions, prop_of.
  destruct opts as [j|]; [|discriminate].
  assert (j = JNull \/ j <> JNull) as [->|Hj] by (destruct j; auto; right; discriminate).
  { discriminate. }
  assert (forall name, match j with JNull => inl (cannot_read name "null")
                                  | _ => inr (get_field j name) end
                       = @inr jserror _ (get_field j name)) as E
      by (intros name; destruct j; congruence).
  rewrite !E. intros H. inversion H; subst; clear H.
  exists j. split; [reflexivity|].
  destruct (get_field j "tenant") as [t|], (get_field j "model") as [m|],
    (get_field j "method") as [me|];
    (repeat split; try reflexivity;
     destruct (get_field j "params") as [[]|]; reflexivity).
Qed.

Lemma merged_request_is_what_the_server_reads_witness :
  exists j,
    Some (JObj [("tenant", JStr "t1"); ("model", JStr "Student");
                ("method", JStr "findById"); ("params", JNum 5)]) = Some j /\
    falsy (JObj [("db", JStr "MySql"); ("tenant", JStr "t1"); ("model", JStr "Student");
                 ("method", JStr "findById"); ("params", JArr [JNum 5])]) = false /\
    get_field (JObj [("db", JStr "MySql"); ("tenant", JStr "t1"); ("model", JStr "Student");
                     ("method", JStr "findById"); ("params", JArr [JNum 5])]) "db"
    = Some (JStr "MySql") /\
    get_field (JObj [("db", JStr "MySql"); ("tenant", JStr "t1"); ("model", JStr "Student");
                     ("method", JStr "findById"); ("params", JArr [JNum 5])]) "tenant"
    = get_field j "tenant" /\
    get_field (JObj [("db", JStr "MySql"); ("tenant", JStr "t1"); ("model", JStr "Student");
                     ("method", JStr "findById"); ("params", JArr [JNum 5])]) "model"
    = get_field j "model" /\
    get_field (JObj [("db", JStr "MySql"); ("tenant", JStr "t1"); ("model", JStr "Student");
                     ("method", JStr "findById"); ("params", JArr [JNum 5])]) "method"
    = get_field j "method" /\
    normalize_params
      (get_field (JObj [("db", JStr "MySql"); ("tenant", JStr "t1"); ("model", JStr "Student");
                        ("method", JStr "findById"); ("params", JArr [JNum 5])]) "params")
    = match get_field j "params" with
      | Some (JArr items) => map Some items
      | Some p => [Some p]
      | None => [Some JNull]
      end.
Proof.
  apply (merged_request_is_what_the_server_reads "MySql"
           (Some (JObj [("tenant", JStr "t1"); ("model", JStr "Student");
                        ("method", JStr "findById"); ("params", JNum 5)]))).
  reflexivity.
Defined.

(** ** Promises and listeners *)

Lemma settle_lookup r ps i id :
  settle r ps i !! id
  = if decide (i = id)
    then match ps !! id with Some None => Some (Some r) | o => o end
    else ps !! id.
Proof.
  unfold settle. destruct (decide (i = id)) as [->|Hne].
  - destruct (ps !! id) as [[x|]|] eqn:E; rewrite ?E; try reflexivity.
    apply list_lookup_insert_eq. eapply lookup_lt_Some, E.
  - destruct (ps !! i) as [[x|]|]; try reflexivity.
    apply list_lookup_insert_ne, Hne.
Qed.

Lemma settle_length r ps i : length (settle r ps i) = length ps.
Proof. unfold settle. destruct (ps !! i) as [[x|]|]; rewrite ?length_insert; reflexivity. Qed.

(** All the listeners of an event have run: a promise that was pending is
    settled if it had a listener, every other promise is what it was. *)
Lemma foldl_settle_lookup r ids : forall ps id,
  foldl (settle r) ps ids !! id
  = match ps !! id with
    | Some None => if decide (id ∈ ids) then Some (Some r) else Some None
    | o => o
    end.
Proof.
  induction ids as [|i rest IH]; intros ps id; simpl.
  - destruct (ps !! id) as [[x|]|]; reflexivity.
  - rewrite IH, settle_lookup.
    destruct (decide (i = id)) as [->|Hne].
    + destruct (ps !! id) as [[x|]|]; try reflexivity.
      rewrite decide_True by (apply elem_of_cons; auto). reflexivity.
    + destruct (ps !! id) as [[x|]|]; try reflexivity.
      destruct (decide (id ∈ rest)) as [Hin|Hout].
      * rewrite decide_True by (apply elem_of_cons; auto). reflexivity.
      * rewrite decide_False; [reflexivity|].
        intros [?|?]%elem_of_cons; [congruence|contradiction].
Qed.

Lemma foldl_settle_length r ids : forall ps, length (foldl (settle r) ps ids) = length ps.
Proof.
  induction ids as [|i rest IH]; intros ps; simpl; [reflexivity|].
  rewrite IH. apply settle_length.
Qed.

(** A settled promise stays as it is, whatever the socket emits. *)
Lemma emit_keeps_settled ev s id x :
  promises s !! id = Some (Some x) -> promises (emit ev s) !! id = Some (Some x).
Proof.
  intros H. destruct ev as [chunk|e]; simpl; rewrite foldl_settle_lookup, H; reflexivity.
Qed.

Lemma events_keep_settled events : forall s id x,
  promises s !! id = Some (Some x) ->
  promises (run (map Event events) s) !! id = Some (Some x).
Proof.
  induction events as [|ev rest IH]; intros s id x H; simpl; [exact H|].
  apply IH. apply emit_keeps_settled, H.
Qed.

(** X12.  One request on a client that has its socket, followed by any
    events: the promise the request returned is in the state [_write]
    computes from whether the write was accepted and from the events, with
    no regard to the requests made before or to the listeners they left. *)
Theorem request_settles_as_write_says
        (s : session) (wire : json) (text : string) (write_ok : bool)
        (events : list Client.socket_event) :
  has_socket s = true ->
  result (run (map Event events) (_write (inr wire) write_ok s)) (length (promises s))
  = Client._write (inr text) write_ok events.
Proof.
  intros Hs. unfold result, Client._write, Client.executor.
  set (s1 := _write (inr wire) write_ok s).
  assert (promises s1 !! length (promises s)
          = Some (if write_ok then None
                  else Some (inl (Client.ByString Client.waiting_for_drain)))) as Hp.
  { unfold s1, _write. rewrite Hs. simpl. apply list_lookup_middle. reflexivity. }
  assert (length (promises s) ∈ data_once s1 /\ length (promises s) ∈ error_once s1)
    as [Hd He].
  { unfold s1, _write. rewrite Hs. simpl. split; apply elem_of_app; right; apply list_elem_of_singleton; reflexivity. }
  destruct write_ok; simpl negb; cbv iota.
  - destruct events as [|ev rest]; simpl.
    + rewrite Hp. reflexivity.
    + assert (promises (emit ev s1) !! length (promises s)
              = Some (Some (match ev with
                            | Client.DataEvent chunk => inr chunk
                            | Client.ErrorEvent e => inl (Client.ByError e)
                            end))) as Hset.
      { destruct ev as [chunk|e]; simpl; rewrite foldl_settle_lookup, Hp;
          rewrite decide_True by assumption; reflexivity. }
      rewrite (events_keep_settled rest _ _ _ Hset).
      destruct ev as [[err|value]|e]; reflexivity.
  - rewrite (events_keep_settled events _ _ _ Hp). reflexivity.
Qed.

Lemma request_settles_as_write_says_witness :
  result (run (map Event [Client.DataEvent (Parsed (JNum 1)); Client.DataEvent (Parsed (JNum 2))])
              (_write (inr (JObj [])) true
                      (Session true None [] [] [] [])))
         0
  = Client._write (inr "{}") true
                  [Client.DataEvent (Parsed (JNum 1)); Client.DataEvent (Parsed (JNum 2))].
Proof.
  apply (request_settles_as_write_says (Session true None [] [] [] []) (JObj []) "{}" true).
  reflexivity.
Defined.

(** ** Every pending request hears the next event *)

Lemma listening_construct opts s : construct opts = inr s -> listening s.
Proof.
  unfold construct. destruct (encoding_of opts); [discriminate|].
  intros H. inversion H; subst. intros id Hid. discriminate.
Qed.

Lemma listening_write data write_ok s : listening s -> listening (_write data write_ok s).
Proof.
  intros HL id. unfold _write.
  destruct data as [err|d]; [|destruct (has_socket s)]; simpl; intros Hid.
  - apply lookup_snoc_Some in Hid as [[_ Hid]|[_ Hid]]; [apply HL, Hid|discriminate].
  - apply lookup_snoc_Some in Hid as [[_ Hid]|[-> Hid]].
    + destruct (HL id Hid). split; apply elem_of_app; auto.
    + split; apply elem_of_app; right; apply list_elem_of_singleton; reflexivity.
  - apply lookup_snoc_Some in Hid as [[_ Hid]|[_ Hid]]; [apply HL, Hid|discriminate].
Qed.

Lemma emit_settles ev s id :
  listening s ->
  promises s !! id = Some None ->
  promises (emit ev s) !! id = Some (Some (settlement_of ev)).
Proof.
  intros HL Hid. destruct (HL id Hid) as [Hd He].
  destruct ev as [chunk|e]; simpl; rewrite foldl_settle_lookup, Hid;
    rewrite decide_True by assumption; reflexivity.
Qed.

Lemma listening_emit ev s : listening s -> listening (emit ev s).
Proof.
  intros HL id Hid. exfalso.
  destruct (promises s !! id) as [[x|]|] eqn:E.
  - rewrite (emit_keeps_settled ev s id x E) in Hid. discriminate.
  - rewrite (emit_settles ev s id HL E) in Hid. discriminate.
  - destruct ev as [chunk|e]; simpl in Hid; rewrite foldl_settle_lookup, E in Hid;
      discriminate.
Qed.

Lemma listening_step st s : listening s -> listening (do_step s st).
Proof.
  intros HL. destruct st as [db opts write_ok|ev|opts|]; simpl.
  - unfold call_method. destruct (mergeOptions db opts); [exact HL|].
    apply listening_write, HL.
  - apply listening_emit, HL.
  - unfold connect. destruct (has_socket s); exact HL.
  - unfold end_. destruct (has_socket s); exact HL.
Qed.

Lemma listening_run steps : forall s, listening s -> listening (run steps s).
Proof.
  induction steps as [|st rest IH]; intros s HL; simpl; [exact HL|].
  apply IH, listening_step, HL.
Qed.

(** X13.  On a client, whatever it has done so far: an event of the socket
    settles every promise that is still pending, each with that same event.
    Two requests made before the first response both complete with the
    first response; a response that comes after an error misses its
    request. *)
Theorem an_event_settles_every_pending_request
        (opts : jsvalue) (s0 : session) (steps : list step)
        (ev : Client.socket_event) (id : nat) :
  construct opts = inr s0 ->
  let s := run steps s0 in
  promises s !! id = Some None ->
  promises (emit ev s) !! id = Some (Some (settlement_of ev)) /\
  result (emit ev s) id = Client.then_parse (Some (settlement_of ev)).
Proof.
  intros Hc s Hid.
  assert (listening s) as HL by (apply listening_run, (listening_construct opts), Hc).
  pose proof (emit_settles ev s id HL Hid) as H.
  split; [exact H|]. unfold result. rewrite H. reflexivity.
Qed.

Lemma an_event_settles_every_pending_request_witness :
  let s := run [Request "MySql" (Some (JObj [("tenant", JStr "t1")])) true;
                Request "data" (Some (JObj [("tenant", JStr "t1")])) true]
               (Session true (Some (JNum 3000))
                        [CallSetEncoding (Some (JStr "utf8")); CallConnect (Some (JNum 3000))]
                        [] [] []) in
  promises (emit (Client.DataEvent (Parsed (JNum 7))) s) !! 1%nat
  = Some (Some (settlement_of (Client.DataEvent (Parsed (JNum 7))))) /\
  result (emit (Client.DataEvent (Parsed (JNum 7))) s) 1
  = Client.then_parse (Some (settlement_of (Client.DataEvent (Parsed (JNum 7))))).
Proof.
  apply (an_event_settles_every_pending_request (Some (JNum 3000)) _ _ _ 1%nat);
    reflexivity.
Defined.

Example pipelined_requests_share_a_response :
  let s := run [Request "MySql" (Some (JObj [("tenant", JStr "t1")])) true;
                Request "data" (Some (JObj [("tenant", JStr "t1")])) true;
                Event (Client.DataEvent (Parsed (JNum 7)));
                Event (Client.DataEvent (Parsed (JNum 8)))]
               (Session true None [] [] [] []) in
  result s 0 = Client.Fulfilled (JNum 7) /\ result s 1 = Client.Fulfilled (JNum 7).
Proof. split; reflexivity. Qed.

(** ** After [end()] *)

Lemma closed_step st s : has_socket s = false -> has_socket (do_step s st) = false.
Proof.
  intros H. destruct st as [db opts write_ok|[chunk|e]|opts|]; simpl; try exact H.
  - unfold call_method. destruct (mergeOptions db opts); [exact H|].
    unfold _write. rewrite H. reflexivity.
  - unfold connect. rewrite H. exact H.
  - unfold end_. rewrite H. exact H.
Qed.

Lemma closed_run steps : forall s, has_socket s = false -> has_socket (run steps s) = false.
Proof.
  induction steps as [|st rest IH]; intros s H; simpl; [exact H|].
  apply IH, closed_step, H.
Qed.

(** X14.  Once [end()] has returned, the client has no socket and never
    gets one back: from then on [end()] and [connect()] throw a
    [TypeError], and every request a request method accepts returns a
    promise that is rejected with the [TypeError] of reading
    [this.socket.once]; nothing is written. *)
Theorem closed_client_stays_closed (s s1 : session) (steps : list step) :
  end_ s = inr s1 ->
  let s2 := run steps s1 in
  end_ s2 = inl (cannot_read "end" "undefined") /\
  (forall opts, connect opts s2 = inl (cannot_read "connect" "undefined")) /\
  (forall db opts write_ok s3,
      call_method db opts write_ok s2 = inr s3 ->
      calls s3 = calls s2 /\
      result s3 (length (promises s2))
      = Client.Rejected (Client.ByError (cannot_read "once" "undefined"))).
Proof.
  intros He s2.
  assert (has_socket s1 = false) as H1.
  { unfold end_ in He. destruct (has_socket s); inversion He; reflexivity. }
  pose proof (closed_run steps s1 H1) as H2. fold s2 in H2.
  split; [unfold end_; rewrite H2; reflexivity|]. split.
  - intros opts. unfold connect. rewrite H2. reflexivity.
  - intros db opts write_ok s3. unfold call_method.
    destruct (mergeOptions db opts) as [e|wire]; [discriminate|].
    intros H. inversion H; subst; clear H. unfold _write. rewrite H2. simpl.
    split; [reflexivity|]. unfold result. simpl.
    rewrite list_lookup_middle by reflexivity. reflexivity.
Qed.

Lemma closed_client_stays_closed_witness :
  let s1 := Session false None [CallEnd] [] [] [] in
  let s2 := run [Reconnect (Some (JNum 3000))] s1 in
  end_ s2 = inl (cannot_read "end" "undefined") /\
  (forall opts, connect opts s2 = inl (cannot_read "connect" "undefined")) /\
  (forall db opts write_ok s3,
      call_method db opts write_ok s2 = inr s3 ->
      calls s3 = calls s2 /\
      result s3 (length (promises s2))
      = Client.Rejected (Client.ByError (cannot_read "once" "undefined"))).
Proof.
  apply (closed_client_stays_closed (Session true None [] [] [] [])).
  reflexivity.
Defined.

(** ** Listeners that stay *)

(** X15.  As long as the socket emits no [error] and [end()] is not
    called, every promise a request method has made has left its [error]
    listener on the socket: responses remove the [data] listeners only, so
    the [error] listeners number as many as the requests made so far. *)
Theorem error_listeners_pile_up (opts : jsvalue) (s0 : session) (steps : list step) :
  construct opts = inr s0 ->
  forallb quiet steps = true ->
  length (error_once (run steps s0)) = length (promises (run steps s0)).
Proof.
  intros Hc Hq.
  assert (has_socket s0 = true /\ length (error_once s0) = length (promises s0)) as Hinv.
  { unfold construct in Hc. destruct (encoding_of opts); [discriminate|].
    inversion Hc; subst. split; reflexivity. }
  clear Hc. revert s0 Hinv Hq.
  induction steps as [|st rest IH]; intros s [Hs Hlen] Hq; simpl; [exact Hlen|].
  simpl in Hq. apply andb_true_iff in Hq as [Hst Hrest].
  apply IH; [|exact Hrest].
  destruct st as [db o write_ok|[chunk|e]|o|]; simpl in *; try discriminate.
  - unfold call_method. destruct (mergeOptions db o); [split; assumption|].
    unfold _write. rewrite Hs. simpl. rewrite !length_app. simpl. split; [reflexivity|lia].
  - split; [exact Hs|]. rewrite foldl_settle_length. exact Hlen.
  - unfold connect. rewrite Hs. simpl. split; [reflexivity|exact Hlen].
Qed.

Lemma error_listeners_pile_up_witness :
  let steps := [Request "MySql" (Some (JObj [("tenant", JStr "t1")])) true;
                Event (Client.DataEvent (Parsed (JNum 7)));
                Request "data" (Some (JObj [("tenant", JStr "t1")])) true;
                Event (Client.DataEvent (Parsed (JNum 8)))] in
  let s0 := Session true (Some (JNum 3000))
                    [CallSetEncoding (Some (JStr "utf8")); CallConnect (Some (JNum 3000))]
                    [] [] [] in
  length (error_once (run steps s0)) = length (promises (run steps s0)).
Proof.
  apply (error_listeners_pile_up (Some (JNum 3000))); reflexivity.
Defined.

(** ** Options that are not there *)

(** X18.  A request method throws, at once and with a [TypeError], exactly
    when its options are [undefined] or [null].  With any other value, an
    object or not, with or without the fields, it returns a promise (one
    more than before), and the request it writes, if the client has its
    socket, is the one [mergeOptions] built. *)
Theorem request_throws_only_without_options
        (db : string) (opts : jsvalue) (write_ok : bool) (s : session) :
  (opts = None \/ opts = Some JNull ->
   exists e, err_name e = "TypeError" /\ call_method db opts write_ok s = inl e) /\
  (opts <> None -> opts <> Some JNull ->
   exists wire s',
     mergeOptions db opts = inr wire /\
     call_method db opts write_ok s = inr s' /\
     length (promises s') = S (length (promises s)) /\
     calls s' = if has_socket s then (calls s ++ [CallWrite wire])%list else calls s).
Proof.
  split.
  - intros [-> | ->]; (eexists; split; [|reflexivity]; reflexivity).
  - intros H1 H2. destruct opts as [j|]; [|congruence].
    assert (exists wire, mergeOptions db (Some j) = inr wire) as [wire Hw].
    { unfold mergeOptions, prop_of. destruct j; try congruence; eexists; reflexivity. }
    exists wire, (_write (inr wire) write_ok s).
    split; [exact Hw|]. unfold call_method. rewrite Hw.
    split; [reflexivity|]. unfold _write.
    destruct (has_socket s); simpl; rewrite length_app; simpl; split; try lia; reflexivity.
Qed.

Lemma request_throws_only_without_options_witness :
  exists e, err_name e = "TypeError" /\
            call_method "MySql" None true (Session true None [] [] [] []) = inl e.
Proof.
  apply (proj1 (request_throws_only_without_options
                  "MySql" None true (Session true None [] [] [] []))).
  left. reflexivity.
Defined.

End ClientFacts.

(** * More on direct calls *)

(** ** A [Mongo] method must return a promise *)

(** X16.  In the [Mongo] branch [.then] is called on whatever the method
    returns, with no test: a method that returns anything but a promise (a
    number, a record, [null], [undefined]) is answered with the [TypeError]
    of that call, and nothing is cached. *)
Theorem mongo_needs_a_promise (data : json) (c c1 : conn) (v : val) :
  let db := get_field data "db" in
  let tenant := get_field data "tenant" in
  falsy data = false ->
  is_str db "Mongo" = true ->
  invocation db tenant (get_field data "model") (get_field data "method")
             (normalize_params (get_field data "params")) (dispatched db tenant c)
  = (c1, inr v) ->
  (forall l s, v = VRef l -> obj_kind (deref (heap c) l) <> Promise s) ->
  exists e, err_name e = "TypeError" /\
            serve (Parsed data) c
            = (write (ErrorFrame (message e)) (init_cache (to_key tenant) c), None).
Proof.
  intros db tenant Hf Hdb Hi Hv. apply invocation_eq in Hi.
  assert (provider_enum db = true) as He.
  { unfold provider_enum. rewrite Hdb. destruct (is_str db "MySql"); reflexivity. }
  assert (dispatched db tenant c = init_cache (to_key tenant) c) as Hd.
  { unfold dispatched. rewrite (direct_not_cached db (or_intror Hdb)). reflexivity. }
  assert (exists e, err_name e = "TypeError" /\ then_of (heap c) v = inl e) as (e & Hn & Ht).
  { unfold then_of.
    destruct v as [| | | | |l]; try (eexists; split; [|reflexivity]; reflexivity).
    destruct (obj_kind (deref (heap c) l)) eqn:Hk;
      try (eexists; split; [|reflexivity]; reflexivity).
    exfalso. eapply Hv; [reflexivity|exact Hk]. }
  exists e. split; [exact Hn|].
  unfold serve. rewrite on_data_dispatch by assumption. fold db tenant.
  unfold invocation in Hi. rewrite Hdb in *. rewrite Hd in *.
  unfold catch_send, try_catch, mongo_branch. unfold bind at 1. rewrite Hi.
  unfold bind, get, lift. simpl heap. rewrite Ht. reflexivity.
Qed.

Lemma mongo_needs_a_promise_witness :
  exists e, err_name e = "TypeError" /\
            serve (request "Mongo" "t1" "Book" "count" []) Library.fresh
            = (write (ErrorFrame (message e)) (init_cache "t1" Library.fresh), None).
Proof.
  apply (mongo_needs_a_promise
           (JObj [("db", JStr "Mongo"); ("tenant", JStr "t1"); ("model", JStr "Book");
                  ("method", JStr "count"); ("params", JArr [])])
           Library.fresh (init_cache "t1" Library.fresh) (VNum 3)).
  - reflexivity.
  - reflexivity.
  - vm_compute. reflexivity.
  - intros l s H. discriminate.
Defined.

(** ** From a direct call to the call on its record *)

Lemma serve_direct_single (data : json) (c c1 : conn) (v r p : val) (n : string) :
  let db := get_field data "db" in
  let tenant := get_field data "tenant" in
  falsy data = false ->
  is_str db "MySql" = true \/ is_str db "Mongo" = true ->
  invocation db tenant (get_field data "model") (get_field data "method")
             (normalize_params (get_field data "params")) (dispatched db tenant c)
  = (c1, inr v) ->
  (if is_str db "Mongo" then then_of (heap c) v = inr (Fulfils r)
   else answer (heap c) v = Some r) ->
  as_array (heap c) r = None ->
  r <> VUndef ->
  _getModelName (heap c) r = inr n ->
  _getPlainObject (heap c) r db = inr p ->
  p <> VUndef ->
  serve (Parsed data) c
  = (Conn (<[to_key tenant := SCache (<[n := r]> ∅) ∅]> (props c)) (heap c)
          (written c ++ [Payload p])%list, None).
Proof.
  intros db tenant Hf Hdb Hi Hdel Harr Hundef Hname Hplain Hpl.
  apply invocation_eq in Hi.
  assert (provider_enum db = true) as He.
  { unfold provider_enum. destruct Hdb as [-> | ->]; simpl; auto.
    destruct (is_str db "MySql"); reflexivity. }
  assert (dispatched db tenant c = init_cache (to_key tenant) c) as Hd.
  { unfold dispatched. rewrite (direct_not_cached db Hdb). reflexivity. }
  rewrite Hd in Hi.
  assert (resolved db tenant r (init_cache (to_key tenant) c)
          = (Conn (<[to_key tenant := SCache (<[n := r]> ∅) ∅]> (props c)) (heap c)
                  (written c ++ [Payload p])%list, inr tt)) as HR.
  { rewrite (resolved_single db tenant _ ∅ ∅ r p n); try assumption.
    - simpl. rewrite insert_insert_eq. reflexivity.
    - simpl. apply lookup_insert_eq. }
  unfold serve. rewrite on_data_dispatch by assumption. fold db tenant. rewrite Hd.
  unfold invocation in Hi.
  destruct (is_str db "Mongo").
  - unfold catch_send, try_catch, mongo_branch. unfold bind at 1. rewrite Hi.
    unfold bind, get, lift, ret. simpl heap. rewrite Hdel. cbv beta iota.
    unfold on_settle. rewrite HR. reflexivity.
  - unfold catch_send, try_catch, direct_branch. unfold bind at 1. rewrite Hi.
    unfold bind at 1, get at 1. unfold bind at 1, lift at 1. simpl heap.
    unfold answer in Hdel.
    destruct (thenable (heap c) v) as [e|[[u|e]|]]; try discriminate;
      inversion Hdel; subst.
    + unfold ret. cbv beta iota. unfold on_settle. rewrite HR. reflexivity.
    + unfold bind, ret. rewrite HR. reflexivity.
Qed.

(** * What the handler reads of a message *)





(** * Properties on a socket whose own members are intact *)


Lemma socket_intact_same_props c c' :
  props c' = props c -> socket_intact c' = socket_intact c.
Proof. unfold socket_intact. intros ->. reflexivity. Qed.




(** ** Rejected messages *)

(** C5, as amended.  On a connection that is open and whose socket has its
    own members intact: a chunk [JSON.parse] refuses is answered with an
    error response that carries the parser's message; a chunk that parses
    to a falsy value, or whose provider field is not one of the four
    values, is answered with [{error: "Signature does not match."}].  In
    both cases nothing else happens: no cache is initialised, no provider
    is called, the connection is still open and its socket still intact for
    the requests that follow.  The fields [tenant], [model] and [method] are
    not looked at. *)
Theorem rejected_before_dispatch (l : link) :
  destroyed l = false ->
  socket_intact (sock l) = true ->
  (forall err,
      deliver (Data (Unparsable err)) l
      = (Link (write (ErrorFrame (message err)) (sock l)) false, None)) /\
  (forall data,
      falsy data = true \/ provider_enum (get_field data "db") = false ->
      deliver (Data (Parsed data)) l
      = (Link (write (ErrorFrame "Signature does not match.") (sock l)) false, None)) /\
  (forall f, socket_intact (write f (sock l)) = true).
Proof.
  intros Hd Hi. unfold deliver. rewrite Hd. split; [|split].
  - intros err. reflexivity.
  - intros data H. unfold serve. rewrite rejected_parsed by exact H. reflexivity.
  - intros f. exact Hi.
Qed.

Lemma rejected_before_dispatch_witness :
  deliver (Data (Parsed (JObj [("db", JStr "Postgres"); ("tenant", JStr "t1")])))
          (Link School.after_find false)
  = (Link (write (ErrorFrame "Signature does not match.") School.after_find) false, None).
Proof.
  apply (proj1 (proj2 (rejected_before_dispatch (Link School.after_find false)
                         eq_refl ltac:(vm_compute; reflexivity)))).
  right. reflexivity.
Defined.

(** ** Failures inside the handler's [try] *)




(** A resolution that fails inside the [try]: [getTableName] returns
    [undefined] at once, [resolved] makes it [null] and throws on
    [null.Model]; the error is sent, and the tenant's cache is the empty one
    of the dispatch. *)
Example resolution_failure_is_sent :
  let c := School.after_find in
  deliver (Data (request "MySql" "t1" "Student" "getTableName" [])) (Link c false)
  = (Link (write (ErrorFrame "Cannot read property 'Model' of null") (init_cache "t1" c))
          false, None).
Proof. vm_compute. reflexivity. Qed.

(** ** Cache misses *)



(** On a new connection and after any run of requests served to their end,
    every tenant other than "MySql" and "Mongo" has no property or a tenant
    cache. *)
Lemma other_tenants_have_caches this h chunks tenant :
  tenant <> "MySql" -> tenant <> "Mongo" ->
  let c := (serve_all chunks (on_connection this h)).1 in
  props c !! tenant = None \/ is_cache_at c tenant.
Proof.
  intros H1 H2 c.
  apply (tenants_are_caches_all chunks _ (tenants_are_caches_init this h)); assumption.
Qed.

(** ** The cache after a direct call *)




(** ** What [resolved] puts in the cache *)

(** C10, as stated, fails: for an empty array, and for [null], [resolved]
    throws while it derives the name, before anything is stored; the
    tenant's cache stays empty. *)
Lemma nothing_is_cached_for_empty_or_null :
  let c := init_cache "t1" Roster.fresh in
  as_array (heap c) (VRef Roster.none) = Some [] /\
  resolved (Some (JStr "MySql")) (Some (JStr "t1")) (VRef Roster.none) c
  = (c, inl (cannot_read "Model" "undefined")) /\
  resolved (Some (JStr "MySql")) (Some (JStr "t1")) VNull c
  = (c, inl (cannot_read "Model" "null")) /\
  props c !! "t1" = Some (SCache ∅ ∅).
Proof. repeat split; vm_compute; reflexivity. Qed.

(** C10, as amended.  [resolved] for a direct provider ([MySql] or
    [Mongo]), with the tenant's cache in place on a socket that is intact.
    - An array whose first element has a name to derive and whose elements
      can all be made plain: the array object itself is put in [dataSets]
      under the name derived from its first element, then its elements are
      replaced in place by their plain forms; the cache entry is that same
      object, so it now holds the plain forms.  The response is the array.
    - Anything else that has a name to derive and a plain form (so not
      [null] or [undefined]): the record is put in [data] as it is and stays
      as it is in the heap; only the response is its plain form. *)
Theorem cache_holds_array_in_place_record_as_is
        (db tenant : jsvalue) (c : conn) (d ds : gmap string val) :
  socket_intact c = true ->
  is_str db "MySql" = true \/ is_str db "Mongo" = true ->
  props c !! to_key tenant = Some (SCache d ds) ->
  (forall (l : loc) (elems plains : list val) (ms : gmap string method) (name : string),
      heap c !! l = Some (Object (Array elems) ms) ->
      _getModelName (heap c) (default VUndef (elems !! 0%nat)) = inr name ->
      Forall2 (fun e p => _getPlainObject (heap c) e db = inr p) elems plains ->
      resolved db tenant (VRef l) c
      = (Conn (<[to_key tenant := SCache d (<[name := VRef l]> ds)]> (props c))
              (<[l := Object (Array plains) ms]> (heap c))
              (written c ++ [Payload (VRef l)])%list, inr tt)) /\
  (forall (record plain : val) (name : string),
      as_array (heap c) record = None ->
      record <> VUndef ->
      _getModelName (heap c) record = inr name ->
      _getPlainObject (heap c) record db = inr plain ->
      plain <> VUndef ->
      resolved db tenant record c
      = (Conn (<[to_key tenant := SCache (<[name := record]> d) ds]> (props c))
              (heap c)
              (written c ++ [Payload plain])%list, inr tt)).
Proof.
  intros _ Hdb Hslot. pose proof (direct_not_cached db Hdb) as Hc. split.
  - intros l elems plains ms name Hl Hname Hall.
    unfold resolved. cbn [or_null]. unfold bind at 1. unfold get at 1.
    assert (as_array (heap c) (VRef l) = Some elems) as ->.
    { unfold as_array, deref. rewrite Hl. reflexivity. }
    rewrite Hc. simpl negb. cbv iota.
    unfold bind at 1. unfold store, bind at 1, get at 1. rewrite Hslot, Hname.
    unfold bind at 1, lift. rewrite decide_False by discriminate.
    unfold modify at 1.
    unfold bind at 1 2.
    pose proof (normalize_each_ok db l ms elems plains []
                  (set_props (<[to_key tenant:=SCache d (<[name:=VRef l]> ds)]>) c)) as HN.
    simpl in HN. rewrite HN by assumption.
    unfold ret, try_catch, write_json, modify, write, set_heap, set_props. simpl.
    reflexivity.
  - intros record plain name Harr Hundef Hname Hplain Hpl.
    unfold resolved.
    assert (or_null record = record) as ->.
    { destruct record; simpl; congruence. }
    unfold bind at 1. unfold get at 1. rewrite Harr, Hc. simpl negb. cbv iota.
    unfold bind at 1. unfold store, bind at 1, get at 1. rewrite Hslot, Hname.
    unfold bind at 1, lift. rewrite decide_True by reflexivity.
    unfold modify at 1. unfold bind at 1.
    unfold bind, get, set_props. simpl. rewrite Hplain.
    unfold try_catch, write_json, modify, write.
    destruct plain; try congruence; reflexivity.
Qed.

Lemma cache_holds_array_in_place_record_as_is_witness :
  let c := init_cache "t1" School.fresh in
  resolved (Some (JStr "MySql")) (Some (JStr "t1")) (VRef School.parents) c
  = (Conn (<["t1" := SCache ∅ (<["parent" := VRef School.parents]> ∅)]> (props c))
          (<[School.parents :=
               Object (Array [VRef School.mother_plain; VRef School.father_plain]) ∅]> (heap c))
          (written c ++ [Payload (VRef School.parents)])%list, inr tt) /\
  resolved (Some (JStr "MySql")) (Some (JStr "t1")) (VRef School.student) c
  = (Conn (<["t1" := SCache (<["student" := VRef School.student]> ∅) ∅]> (props c))
          (heap c)
          (written c ++ [Payload (VRef School.student_plain)])%list, inr tt).
Proof.
  intros c.
  assert (props c !! to_key (Some (JStr "t1")) = Some (SCache ∅ ∅)) as Hslot
      by (vm_compute; reflexivity).
  pose proof (cache_holds_array_in_place_record_as_is
                (Some (JStr "MySql")) (Some (JStr "t1")) c ∅ ∅
                ltac:(vm_compute; reflexivity) (or_introl eq_refl) Hslot) as [HA HB].
  split.
  - apply (HA School.parents [VRef School.mother; VRef School.father]).
    + vm_compute; reflexivity.
    + vm_compute; reflexivity.
    + repeat constructor; vm_compute; reflexivity.
  - apply HB.
    + vm_compute; reflexivity.
    + discriminate.
    + vm_compute; reflexivity.
    + vm_compute; reflexivity.
    + discriminate.
Defined.

(** * Further properties, on an intact socket *)

(** ** Requests on cached records *)

(** X3.  On a socket that is intact, a [data] or [dataSets] request whose
    names are no built-in names changes no property of the socket: the two
    provider references and every tenant cache are what they were, with the
    same records under the same names, and the socket stays intact.  What
    the invoked method does to the record it is called on is its own. *)
Theorem cached_request_reads_only (data : json) (c : conn) :
  let c' := (serve (Parsed data) c).1 in
  socket_intact c = true ->
  plain_names data = true ->
  falsy data = false ->
  is_cached (get_field data "db") = true ->
  props c' = props c /\ socket_intact c' = true.
Proof.
  intros c' Hi Hp Hf Hc. subst c'.
  pose proof (props_serve_cached data c Hf Hc) as H. split; [exact H|].
  rewrite (socket_intact_same_props c _ H). exact Hi.
Qed.

Lemma cached_request_reads_only_witness :
  let c' := (serve (request "data" "t1" "student" "getParents" []) School.after_find).1 in
  props c' = props School.after_find /\ socket_intact c' = true.
Proof.
  apply (cached_request_reads_only
           (JObj [("db", JStr "data"); ("tenant", JStr "t1"); ("model", JStr "student");
                  ("method", JStr "getParents"); ("params", JArr [])])
           School.after_find); vm_compute; reflexivity.
Defined.

(** ** From a direct call to the call on its record *)

(** X17.  On a socket that is intact, with no built-in name in either
    message: a call for [MySql] or [Mongo] whose method delivers a single
    record (at once, for [MySql], or through a promise) whose model name
    starts with an ASCII character, followed by a [data] call for the same
    tenant that names the record by its derived name and one of its
    methods, where that method delivers a value other than a synchronous
    [null]: the first response is the record's plain form, the second is
    the method's value ([null] for [undefined]), and the tenant's cache
    holds the record itself, nothing else, after both. *)
Theorem record_round_trip
        (data1 data2 : json) (c c1 : conn) (v r p v2 w : val) (n : string) (f : method) :
  let db := get_field data1 "db" in
  let tenant := get_field data1 "tenant" in
  socket_intact c = true ->
  plain_names data1 = true ->
  plain_names data2 = true ->
  ascii_named (heap c) r = true ->
  falsy data1 = false ->
  is_str db "MySql" = true \/ is_str db "Mongo" = true ->
  invocation db tenant (get_field data1 "model") (get_field data1 "method")
             (normalize_params (get_field data1 "params")) (dispatched db tenant c)
  = (c1, inr v) ->
  (if is_str db "Mongo" then then_of (heap c) v = inr (Fulfils r)
   else answer (heap c) v = Some r) ->
  as_array (heap c) r = None ->
  r <> VUndef ->
  _getModelName (heap c) r = inr n ->
  _getPlainObject (heap c) r db = inr p ->
  p <> VUndef ->
  falsy data2 = false ->
  get_field data2 "db" = Some (JStr "data") ->
  to_key (get_field data2 "tenant") = to_key tenant ->
  to_key (get_field data2 "model") = n ->
  member (heap c) r (to_key (get_field data2 "method")) = inr (Some f) ->
  f (normalize_params (get_field data2 "params")) = Returns v2 ->
  answer (heap c) v2 = Some w ->
  serve_all [Parsed data1; Parsed data2] c
  = (Conn (<[to_key tenant := SCache (<[n := r]> ∅) ∅]> (props c)) (heap c)
          (written c ++ [Payload p; Payload (or_null w)])%list, []).
Proof.
  intros db tenant _ _ _ _ Hf Hdb Hi Hdel Harr Hundef Hname Hplain Hpl
         Hf2 Hdb2 Ht2 Hm2 Hmem Hret Hans.
  simpl.
  rewrite (serve_direct_single data1 c c1 v r p n) by assumption. fold db tenant.
  rewrite (cached_call_answers data2 _ r v2 w f); try assumption.
  - unfold write. simpl. rewrite <- app_assoc. reflexivity.
  - rewrite Hdb2. reflexivity.
  - rewrite Hdb2, Ht2, Hm2. unfold cached. simpl.
    rewrite lookup_insert_eq. simpl. apply lookup_insert_eq.
Qed.

Lemma record_round_trip_witness :
  serve_all [request "Mongo" "t1" "Book" "findOne" [JStr "Dune"];
             request "data" "t1" "book" "pages" []] Library.fresh
  = (Conn (<["t1" := SCache (<["book" := VRef Library.book]> ∅) ∅]> (props Library.fresh))
          (heap Library.fresh)
          (written Library.fresh ++ [Payload (VRef Library.book_plain);
                                     Payload (or_null (VNum 200))])%list, []).
Proof.
  apply (record_round_trip
           (JObj [("db", JStr "Mongo"); ("tenant", JStr "t1"); ("model", JStr "Book");
                  ("method", JStr "findOne"); ("params", JArr [JStr "Dune"])])
           (JObj [("db", JStr "data"); ("tenant", JStr "t1"); ("model", JStr "book");
                  ("method", JStr "pages"); ("params", JArr [])])
           Library.fresh (init_cache "t1" Library.fresh)
           (VRef Library.found) (VRef Library.book) (VRef Library.book_plain)
           (VNum 200) (VNum 200) "book" (fun _ => Returns (VNum 200)));
    try discriminate; try (right; reflexivity); vm_compute; reflexivity.
Defined.

(** ** What the handler reads of a message *)



(** ** One response for a request *)



